(** * DiscordPlus: the filtered event-wait helpers, the vote webhook and the
      cog registry of [discordplus/classes.py], embedded as Rocq functions.

    Python objects become records, [None]-able values become [option],
    exceptions and the side effects of the awaited calls are threaded
    through a small state-and-exception monad whose state is the bot. *)

From Stdlib Require Import ZArith List String Ascii Bool Lia DecimalString.
Import ListNotations.
Open Scope string_scope.
Open Scope list_scope.
Open Scope Z_scope.

(* ===================================================================== *)
(** ** Values of the chat framework the code reads                        *)
(* ===================================================================== *)

(** A user or member.  The code reads [.id] and [.mention]; [==] and [!=]
    on users compare ids (the framework's [__eq__]). *)
Record User := mkUser { user_id : Z; user_mention : string }.

Definition user_eq (a b : User) : bool := user_id a =? user_id b.
Definition user_ne (a b : User) : bool := negb (user_eq a b).

Record Channel := mkChannel { channel_id : Z }.

Record Message := mkMessage {
  message_id : Z;
  message_channel : Channel;
  message_author : User;
  message_content : string
}.

(** The emoji of a reaction is a plain string for a unicode emoji and an
    emoji object for a custom one; [str] of the latter is its markup. *)
Inductive Emote :=
| Unicode (s : string)
| Custom (animated : bool) (name : string) (id : Z).

Definition str_of_Z (z : Z) : string := NilZero.string_of_int (Z.to_int z).

Definition str (e : Emote) : string :=
  match e with
  | Unicode s => s
  | Custom animated name id =>
      ("<" ++ (if animated then "a" else "") ++ ":" ++ name ++ ":" ++ str_of_Z id ++ ">")%string
  end.

(** [emoji == '...']: a string equals a string; an emoji object never
    equals a string. *)
Definition emote_eq_str (e : Emote) (s : string) : bool :=
  match e with
  | Unicode s' => String.eqb s' s
  | Custom _ _ _ => false
  end.

Record Reaction := mkReaction { reaction_message : Message; reaction_emoji : Emote }.

Inductive Colour := red | green.

Record Embed := mkEmbed {
  embed_title : string;
  embed_description : string;
  embed_colour : option Colour
}.

(** [PreMessage]: the fields the waits touch.  [delete_after] is a number
    of seconds or [None]; the remaining constructor arguments (tts, files,
    nonce, ...) are only forwarded to the transport. *)
Record PreMessage := mkPreMessage {
  content : option string;
  embed : option Embed;
  delete_after : option Z
}.

Definition set_delete_after (p : PreMessage) (d : option Z) : PreMessage :=
  mkPreMessage (content p) (embed p) d.

(** A value found under a key of the webhook payload. *)
Inductive PyVal :=
| PyStr (s : string)
| PyNotStr.

(** [v == '...'] for such a value. *)
Definition pyval_eq_str (v : option PyVal) (s : string) : bool :=
  match v with
  | Some (PyStr s') => String.eqb s' s
  | _ => false
  end.

(** A Python dict with string keys, in insertion order.  [dict_get] is
    [d.get(k, None)], [dict_set] is [d[k] = v], [dict_of] is [dict(pairs)]. *)
Fixpoint dict_get {V} (d : list (string * V)) (k : string) : option V :=
  match d with
  | [] => None
  | (k', v) :: rest => if String.eqb k' k then Some v else dict_get rest k
  end.

Fixpoint dict_set {V} (d : list (string * V)) (k : string) (v : V) : list (string * V) :=
  match d with
  | [] => [(k, v)]
  | (k', v') :: rest =>
      if String.eqb k' k then (k', v) :: rest else (k', v') :: dict_set rest k v
  end.

Definition dict_of {V} (pairs : list (string * V)) : list (string * V) :=
  fold_left (fun d kv => dict_set d (fst kv) (snd kv)) pairs [].

Definition Dict := list (string * PyVal).

(* ===================================================================== *)
(** ** Cogs                                                               *)
(* ===================================================================== *)

Module CogPlus.

(** [class Status]: four string constants. *)
Module Status.
Definition BetaDisabled : string := "BetaDisabled".
Definition BetaEnabled : string := "BetaEnabled".
Definition Disabled : string := "Disabled".
Definition Enabled : string := "Enabled".
End Status.

(** A subclass of [CogPlus] with its two class attributes, as left by
    the class-definition-time decorators. *)
Record cls := mkCls {
  qualified_name : string;
  __disabled__ : bool;
  __beta__ : bool
}.

(** [CogPlus.disabled] and [CogPlus.beta] applied to a subclass. *)
Definition disabled (c : cls) : cls := mkCls (qualified_name c) true (__beta__ c).
Definition beta (c : cls) : cls := mkCls (qualified_name c) (__disabled__ c) true.

End CogPlus.

(** An instance reads the flags of its class. *)
Definition Cog := CogPlus.cls.

(** What [load_cog] may be handed: a subclass of [CogPlus] or anything else. *)
Inductive PyClass :=
| CogSubclass (c : CogPlus.cls)
| OtherClass.

(* ===================================================================== *)
(** ** Effects, exceptions and the monad                                  *)
(* ===================================================================== *)

Inductive Effect :=
| Send (p : PreMessage) (ch : Channel)
| AddReactions (m : Message) (emotes : option (list Emote))
| Delete (m : Message)
| ClearReactions (m : Message)
| RemoveReaction (r : Reaction) (u : User)
| Dispatch (event_name : string) (data : Dict)
| Print (line : string).

(** An effect either happened in line ([Done]) or was handed to the event
    loop with [asyncio.ensure_future] ([Scheduled]). *)
Inductive LogEntry :=
| Done (e : Effect)
| Scheduled (e : Effect).

Inductive Exn :=
| TimeoutError
| TypeError
| AttributeError
| OtherError (name : string).

Inductive Res (A : Type) :=
| Val (a : A)
| Exc (e : Exn).
Arguments Val {A} a.
Arguments Exc {A} e.

(** The bot: its own user, the attached cogs (a dict in insertion order),
    the side list [__disabled_cogs] (a class attribute, here of the one bot
    of the process), and the log of effects so far. *)
Record Bot := mkBot {
  user : User;
  cogs : list (string * Cog);
  disabled_cogs : list Cog;
  log : list LogEntry
}.

Definition M (A : Type) : Type := Bot -> Res A * Bot.

Definition ret {A} (a : A) : M A := fun b => (Val a, b).

Definition raise {A} (e : Exn) : M A := fun b => (Exc e, b).

Definition bind {A B} (m : M A) (k : A -> M B) : M B :=
  fun b =>
    match m b with
    | (Val a, b') => k a b'
    | (Exc e, b') => (Exc e, b')
    end.

Declare Scope py_scope.
Delimit Scope py_scope with py.
Notation "x <- m ;; k" := (bind m (fun x => k))
  (at level 61, m at next level, right associativity) : py_scope.
Notation "m ;; k" := (bind m (fun _ => k))
  (at level 61, right associativity) : py_scope.
Open Scope py_scope.

Definition lift {A} (r : Res A) : M A := fun b => (r, b).

(** The bot after more effects were logged. *)
Definition logged (b : Bot) (entries : list LogEntry) : Bot :=
  mkBot (user b) (cogs b) (disabled_cogs b) (log b ++ entries).

Definition emit (l : LogEntry) : M unit :=
  fun b => (Val tt, logged b [l]).

Definition self_user : M User := fun b => (Val (user b), b).

(** [await x] on a transport call. *)
Definition await (e : Effect) : M unit := emit (Done e).

(** [asyncio.ensure_future(x)]. *)
Definition ensure_future (e : Effect) : M unit := emit (Scheduled e).

(** [try: body finally: fin] where [fin] falls through: the outcome of
    [body] stands unless [fin] itself raises. *)
Definition try_finally {A} (body : M A) (fin : M unit) : M A :=
  fun b =>
    match body b with
    | (r, b1) =>
        match fin b1 with
        | (Val _, b2) => (r, b2)
        | (Exc e, b2) => (Exc e, b2)
        end
    end.

(** [try: body finally: ...; return x]: [body] yields the locals it
    assigned, which stay at [locals0] when it raises; the [return] of
    the [finally] block discards the pending exception. *)
Definition try_finally_return {L R} (locals0 : L) (body : M L) (fin : L -> M R) : M R :=
  fun b =>
    match body b with
    | (Val l, b1) => fin l b1
    | (Exc _, b1) => fin locals0 b1
    end.

(** What the event loop delivers while one wait is pending: the result of
    sending the prompt, the events dispatched before the wait ends, and
    the exception that ends it when no event resolved it
    ([TimeoutError] when the timeout elapses). *)
Record Env (E : Type) := mkEnv {
  sent : Res Message;
  incoming : list E;
  ending : Exn
}.
Arguments mkEnv {E} sent incoming ending.
Arguments sent {E} e.
Arguments incoming {E} e.
Arguments ending {E} e.

(** The listener loop behind [wait_for]: every dispatched event is handed
    to [check]; the first one it accepts resolves the wait. *)
Fixpoint wait_for_events {E} (check : E -> M bool) (events : list E) (ending : Exn) : M E :=
  match events with
  | [] => raise ending
  | ev :: rest =>
      ok <- check ev ;;
      if ok then ret ev else wait_for_events check rest ending
  end.

(** [self.wait_for(event, check=check, timeout=timeout)].  Durations are
    not modelled: the environment lists what was dispatched while the wait
    was pending and says how it ends otherwise. *)
Definition wait_for {E} (check : E -> M bool) (timeout : option Z) (env : Env E) : M E :=
  wait_for_events check (incoming env) (ending env).

(* ===================================================================== *)
(** ** Helpers of [discordplus/lib.py]                                    *)
(* ===================================================================== *)

(** Modelled from the spec: [lib.try_delete], absent from the sources; a
    best-effort delete that never raises, also on a missing message. *)
Definition try_delete (m : option Message) : M unit :=
  match m with
  | Some m => await (Delete m)
  | None => ret tt
  end.

(** Modelled from the spec: [lib.try_except] applied to
    [message.clear_reactions], absent from the sources; failures are
    swallowed. *)
Definition try_except_clear_reactions (m : Message) : M unit :=
  await (ClearReactions m).

(** Modelled from the spec: [lib.try_add_reaction], absent from the
    sources; attaches the initial emotes, best effort. *)
Definition try_add_reaction (m : Message) (emotes : option (list Emote)) : M unit :=
  await (AddReactions m emotes).

(** [PreMessage.send(ctx)]: the transport's answer comes from the
    environment. *)
Definition PreMessage_send (p : PreMessage) (ch : Channel) (answer : Res Message) : M Message :=
  await (Send p ch) ;;
  lift answer.

(* ===================================================================== *)
(** ** [class BotPlus]                                                    *)
(* ===================================================================== *)

Module BotPlus.

(** [check_reaction(message, target, emotes)]: the predicate handed to
    [wait_for('reaction_add', ...)]. *)
Definition check_reaction (message : Message) (target : User)
    (emotes : option (list Emote)) : Reaction * User -> M bool :=
  fun '(reaction, user) =>
    self <- self_user ;;
    (if (message_id (reaction_message reaction) =? message_id message)
        && negb (user_id user =? user_id self)
     then ensure_future (RemoveReaction reaction user)
     else ret tt) ;;
    if user_ne user target
       || negb (message_id (reaction_message reaction) =? message_id message)
    then ret false
    else ret (match emotes with
              | None => true
              | Some es =>
                  (List.length es =? 0)%nat
                  || existsb (String.eqb (str (reaction_emoji reaction))) (map str es)
              end).

(** The notice [check_message] builds when the caller supplies none. *)
Definition default_forbid_premessage (target : User) : PreMessage :=
  mkPreMessage None
    (Some (mkEmbed "**ERROR**"
             ("Only " ++ user_mention target ++ " can send message here")%string
             (Some red)))
    None.

(** [max(delete_after, 20)]: ordering [None] against a number raises. *)
Definition max_20 (delete_after : option Z) : Res Z :=
  match delete_after with
  | None => Exc TypeError
  | Some d => Val (if d <? 20 then 20 else d)
  end.

(** The inner [check] of the forbid branch, closed over the notice. *)
Definition check_forbidding (channel : Channel) (target : User)
    (forbid_premessage : PreMessage) : Message -> M bool :=
  fun message =>
    self <- self_user ;;
    if (channel_id (message_channel message) =? channel_id channel)
       && negb ((user_id (message_author message) =? user_id target)
                || (user_id (message_author message) =? user_id self))
    then
      ensure_future (Delete message) ;;
      ensure_future (Send forbid_premessage channel) ;;
      ret false
    else
      ret ((channel_id (message_channel message) =? channel_id channel)
           && (user_id (message_author message) =? user_id target)).

(** The inner [check] of the other branch. *)
Definition check_plain (channel : Channel) (target : User) : Message -> M bool :=
  fun message =>
    ret ((channel_id (message_channel message) =? channel_id channel)
         && (user_id (message_author message) =? user_id target)).

(** [check_message(channel, target, forbid, forbid_premessage)]. *)
Definition check_message (channel : Channel) (target : User) (forbid : bool)
    (forbid_premessage : option PreMessage) : M (Message -> M bool) :=
  if forbid then
    let forbid_premessage :=
      match forbid_premessage with
      | None => default_forbid_premessage target
      | Some p => p
      end in
    d <- lift (max_20 (delete_after forbid_premessage)) ;;
    let forbid_premessage := set_delete_after forbid_premessage (Some d) in
    ret (check_forbidding channel target forbid_premessage)
  else
    ret (check_plain channel target).

(** [get_reaction]: [emoji] is assigned inside the [try]; the [finally]
    block cleans up and falls through. *)
Definition get_reaction (channel : Channel) (premessage : PreMessage) (target : User)
    (timeout : option Z) (delete_after : bool) (emotes : option (list Emote))
    (env : Env (Reaction * User)) : M (option Emote) :=
  message <- PreMessage_send premessage channel (sent env) ;;
  try_add_reaction message emotes ;;
  emoji <- try_finally
             (event <- wait_for (check_reaction message target emotes) timeout env ;;
              ret (Some (reaction_emoji (fst event))))
             (if delete_after
              then try_delete (Some message)
              else try_except_clear_reactions message) ;;
  ret emoji.

Definition affirm : string := "✅".
Definition deny : string := "❌".

(** The value [confirm] returns for what [get_reaction] gave it. *)
Definition confirm_answer (emoji : option Emote) : option bool :=
  match emoji with
  | None => None
  | Some e => Some (emote_eq_str e affirm)
  end.

Definition confirm (channel : Channel) (premessage : PreMessage) (target : User)
    (timeout : option Z) (delete_after : bool)
    (env : Env (Reaction * User)) : M (option bool) :=
  emoji <- get_reaction channel premessage target timeout delete_after
             (Some [Unicode affirm; Unicode deny]) env ;;
  ret (confirm_answer emoji).

(** [get_answer]: the locals of the [try] are [(respond, content)]; the
    [finally] block ends in [return content]. *)
Definition get_answer (channel : Channel) (premessage : PreMessage) (target : User)
    (timeout : option Z) (delete_after : bool) (forbid : bool)
    (forbid_premessage : option PreMessage)
    (env : Env Message) : M (option string) :=
  message <- PreMessage_send premessage channel (sent env) ;;
  try_finally_return (None, None)
    (check <- check_message channel target forbid forbid_premessage ;;
     respond <- wait_for check timeout env ;;
     ret (Some respond, Some (message_content respond)))
    (fun '(respond, content) =>
       (if delete_after
        then try_delete (Some message) ;; try_delete respond
        else ret tt) ;;
       ret content).

(** [cogs_status]: attached cogs first, then the side list; [dict]
    keeps the last label given to a name. *)
Definition cogs_status (self : Bot) : list (string * string) :=
  dict_of
    (map (fun '(name, cog) =>
            (name, if CogPlus.__beta__ cog
                   then CogPlus.Status.BetaEnabled else CogPlus.Status.Enabled))
         (cogs self)
     ++
     map (fun cog =>
            (CogPlus.qualified_name cog,
             if CogPlus.__beta__ cog
             then CogPlus.Status.BetaDisabled else CogPlus.Status.Disabled))
         (disabled_cogs self)).

Definition dquote : string := String (ascii_of_nat 34) EmptyString.

(** [add_cog]: the framework stores the cog under its name; a beta cog
    is announced on the console. *)
Definition add_cog (cog : Cog) : M unit :=
  (fun b => (Val tt, mkBot (user b)
                           (dict_set (cogs b) (CogPlus.qualified_name cog) cog)
                           (disabled_cogs b) (log b))) ;;
  if CogPlus.__beta__ cog
  then emit (Done (Print (dquote ++ CogPlus.qualified_name cog ++ dquote
                          ++ " is in beta status but it has been activated")%string))
  else ret tt.

Definition append_disabled (cog : Cog) : M unit :=
  fun b => (Val tt, mkBot (user b) (cogs b) (disabled_cogs b ++ [cog]) (log b)).

Definition load_cog (cls : PyClass) : M unit :=
  match cls with
  | CogSubclass c =>
      let cog : Cog := c in
      if CogPlus.__disabled__ cog
      then append_disabled cog
      else add_cog cog
  | OtherClass => raise TypeError
  end.

(** A setup script: [load_cog] applied to one class after another. *)
Fixpoint load_cogs (classes : list PyClass) : M unit :=
  match classes with
  | [] => ret tt
  | cls :: rest => load_cog cls ;; load_cogs rest
  end.

End BotPlus.

(* ===================================================================== *)
(** ** [class API]                                                        *)
(* ===================================================================== *)

Module API.

Record t := mk { _auth : option string }.

Definition set_auth (self : t) (auth : option string) : t := mk auth.

(** [request.json]: an object, or some other JSON value of which only
    the truth value is looked at. *)
Inductive Json :=
| JObject (d : Dict)
| JOther (truthy : bool).

Record Request := mkRequest {
  authorization : option string;
  json : option Json;
  form : Dict;
  args : Dict
}.

Inductive Response := mkResponse (status : Z).

Definition nonempty (d : Dict) : bool :=
  match d with [] => false | _ => true end.

Definition json_truthy (j : option Json) : bool :=
  match j with
  | None => false
  | Some (JObject d) => nonempty d
  | Some (JOther truthy) => truthy
  end.

(** [request.json or request.form or request.args or {}]; [None] stands
    for a JSON value without a [get] method. *)
Definition request_data (request : Request) : option Dict :=
  if json_truthy (json request) then
    match json request with
    | Some (JObject d) => Some d
    | _ => None
    end
  else if nonempty (form request) then Some (form request)
  else if nonempty (args request) then Some (args request)
  else Some [].

Definition option_string_eqb (a b : option string) : bool :=
  match a, b with
  | None, None => true
  | Some x, Some y => String.eqb x y
  | _, _ => false
  end.

Definition is_not_None {A} (a : option A) : bool :=
  match a with Some _ => true | None => false end.

Definition dispatch (event_name : string) (data : Dict) : M unit :=
  emit (Done (Dispatch event_name data)).

Definition vote (self : t) (request : Request) : M Response :=
  let req_auth := authorization request in
  if option_string_eqb (_auth self) req_auth && is_not_None (_auth self) then
    match request_data request with
    | None => raise AttributeError
    | Some data =>
        match (if pyval_eq_str (dict_get data "type") "upvote" then Some "vote"
               else if pyval_eq_str (dict_get data "type") "test" then Some "test_vote"
               else None) with
        | Some event_name =>
            dispatch event_name data ;;
            ret (mkResponse 200)
        | None => ret (mkResponse 401)
        end
    end
  else ret (mkResponse 401).

(** The request as it reaches the handler: reading [request.json] parses
    the body and may raise instead of giving a value (a body that does not
    parse, or one that is no JSON at all with a framework that refuses
    it). *)
Record HttpRequest := mkHttpRequest {
  http_authorization : option string;
  read_json : Res (option Json);
  http_form : Dict;
  http_args : Dict
}.

(** [vote] with the reading of the body in it: [request.json] is read
    only once the credential has been accepted. *)
Definition vote_http (self : t) (request : HttpRequest) : M Response :=
  let req_auth := http_authorization request in
  if option_string_eqb (_auth self) req_auth && is_not_None (_auth self) then
    json <- lift (read_json request) ;;
    match request_data (mkRequest req_auth json (http_form request) (http_args request)) with
    | None => raise AttributeError
    | Some data =>
        match (if pyval_eq_str (dict_get data "type") "upvote" then Some "vote"
               else if pyval_eq_str (dict_get data "type") "test" then Some "test_vote"
               else None) with
        | Some event_name =>
            dispatch event_name data ;;
            ret (mkResponse 200)
        | None => ret (mkResponse 401)
        end
    end
  else ret (mkResponse 401).

End API.

(* ===================================================================== *)
(** ** [BotPlus.load_extensions]                                          *)
(* ===================================================================== *)

(** [s.replace(old, new)] for a one-character [old]. *)
Fixpoint replace_char (old new : ascii) (s : string) : string :=
  match s with
  | EmptyString => EmptyString
  | String c rest =>
      String (if Ascii.eqb c old then new else c) (replace_char old new rest)
  end.

(** [file.replace('/', '.').replace('\\', '.')]: the name handed to
    [importlib.import_module]. *)
Definition module_name (file : string) : string :=
  replace_char "\" "." (replace_char "/" "." file).

(** What [load_extensions] asks of the operating system: [os.path.isdir]
    and [os.listdir]. *)
Record FileSystem := mkFileSystem {
  isdir : string -> bool;
  listdir : string -> list string
}.

(** [load_extensions] over its [files].  The result is the list of names handed to
    [import_module], in order, and how the call ended; [import_module]
    says what importing a name does.  [depth] is the number of nested
    calls the interpreter still allows. *)
Fixpoint load_extensions (depth : nat) (fs : FileSystem)
    (import_module : string -> Res unit) (files : list string)
    : list string * Res unit :=
  match depth with
  | O => ([], Exc (OtherError "RecursionError"))
  | S depth' =>
      (fix each (files : list string) : list string * Res unit :=
         match files with
         | [] => ([], Val tt)
         | file :: rest =>
             let '(imported, r) :=
               if isdir fs file
               then
                 let within_files :=
                   map (fun within_file => (file ++ "/" ++ within_file)%string)
                     (listdir fs file) in
                 load_extensions depth' fs import_module within_files
               else ([module_name file], import_module (module_name file)) in
             match r with
             | Val _ => let '(more, r') := each rest in (imported ++ more, r')
             | Exc e => (imported, Exc e)
             end
         end) files
  end.

(* ===================================================================== *)
(** ** The decorators                                                     *)
(* ===================================================================== *)

(** What a decorator may be handed: a class, or [None] (what [load_cog]
    returns). *)
Inductive PyObj :=
| PyCls (cls : PyClass)
| PyNone.

(** [CogPlus.disabled(cls)] and [CogPlus.beta(cls)] with their
    [issubclass] test. *)
Definition CogPlus_disabled (cls : PyObj) : Res PyObj :=
  match cls with
  | PyCls (CogSubclass c) => Val (PyCls (CogSubclass (CogPlus.disabled c)))
  | _ => Exc TypeError
  end.

Definition CogPlus_beta (cls : PyObj) : Res PyObj :=
  match cls with
  | PyCls (CogSubclass c) => Val (PyCls (CogSubclass (CogPlus.beta c)))
  | _ => Exc TypeError
  end.

(** [@bot.load_cog] as a decorator: [load_cog] has no [return], so the
    decorated name is bound to [None]. *)
Definition load_cog_decorator (cls : PyObj) : M PyObj :=
  match cls with
  | PyCls cls => BotPlus.load_cog cls ;; ret PyNone
  | PyNone => raise TypeError
  end.

(** A class statement under a stack of decorators, innermost first. *)
Fixpoint decorate (decorators : list (PyObj -> M PyObj)) (cls : PyObj) : M PyObj :=
  match decorators with
  | [] => ret cls
  | decorator :: outer => decorated <- decorator cls ;; decorate outer decorated
  end.

(* ===================================================================== *)
(** ** [class CogLib]                                                     *)
(* ===================================================================== *)

Module CogLib.

(** The bot together with its [api] attribute and whether the server
    thread of the API was started. *)
Record Host := mkHost {
  bot : Bot;
  api : option API.t;
  api_thread_started : bool
}.

(** The cog that an [API] instance is: [API] subclasses [CogPlus] and
    sets neither flag. *)
Definition API_cog : Cog := CogPlus.mkCls "API" false false.

(** [activate_api(import_name, host, port, vote_auth)]; [API.__init__]
    starts with [_auth = None]. *)
Definition activate_api (import_name : string) (host : option string) (port : option Z)
    (vote_auth : option string) (h : Host) : Res API.t * Host :=
  let api0 := API.mk None in
  match BotPlus.add_cog API_cog (bot h) with
  | (Val _, bot1) =>
      let api1 := API.set_auth api0 vote_auth in
      (Val api1, mkHost bot1 (Some api1) true)
  | (Exc e, bot1) => (Exc e, mkHost bot1 (Some api0) (api_thread_started h))
  end.

End CogLib.

(* ===================================================================== *)
(** ** [CogLib.activate_prefix_send_on_ping]                              *)
(* ===================================================================== *)

Definition byte_in (c : ascii) (low high : N) : bool :=
  (low <=? N_of_ascii c)%N && (N_of_ascii c <=? high)%N.

Definition byte_is (c : ascii) (n : N) : bool := (N_of_ascii c =? n)%N.

(** The characters [\s] stands for in a [str] pattern, as UTF-8: the
    one-byte ones (tab to carriage return, 0x1C to 0x1F, space), the
    two-byte ones (U+0085, U+00A0) and the three-byte ones (U+1680,
    U+2000 to U+200A, U+2028, U+2029, U+202F, U+205F, U+3000). *)
Definition space1 (c : ascii) : bool :=
  byte_in c 9 13 || byte_in c 28 32.

Definition space2 (c1 c2 : ascii) : bool :=
  byte_is c1 194 && (byte_is c2 133 || byte_is c2 160).

Definition space3 (c1 c2 c3 : ascii) : bool :=
  (byte_is c1 225 && byte_is c2 154 && byte_is c3 128)
  || (byte_is c1 226 && byte_is c2 128
      && (byte_in c3 128 138 || byte_is c3 168 || byte_is c3 169 || byte_is c3 175))
  || (byte_is c1 226 && byte_is c2 129 && byte_is c3 159)
  || (byte_is c1 227 && byte_is c2 128 && byte_is c3 128).

(** What [\s*] leaves of a string when it takes all it can. *)
Fixpoint skip_whitespace (s : string) : string :=
  match s with
  | EmptyString => s
  | String c1 rest1 =>
      if space1 c1 then skip_whitespace rest1
      else
        match rest1 with
        | EmptyString => s
        | String c2 rest2 =>
            if space2 c1 c2 then skip_whitespace rest2
            else
              match rest2 with
              | EmptyString => s
              | String c3 rest3 =>
                  if space3 c1 c2 c3 then skip_whitespace rest3 else s
              end
        end
  end.

(** [{id}] inside the f-string: no variable [id] is in scope of
    [custom_event], so the builtin function is formatted. *)
Definition formatted_id : string := "<built-in function id>".

(** The text between the two [\s*] of the pattern. *)
Definition ping_literal : string := ("<@" ++ formatted_id ++ ">")%string.

(** [re.match(pattern, content)] as a truth value: the literal starts
    with a character that is no whitespace, so it can only match where the
    leading whitespace ends; the trailing [\s*] matches anything. *)
Definition re_match_ping (content : string) : bool :=
  String.prefix ping_literal (skip_whitespace content).

(** Modelled from the spec: [lib.try_send] behind [PreMessage.try_send],
    absent from the sources; a best-effort send. *)
Definition PreMessage_try_send (p : PreMessage) (ch : Channel) : M unit :=
  await (Send p ch).

(** The listener [custom_event] that [activate_prefix_send_on_ping]
    registers; [_premessage] is the function of the message chosen by the
    three branches above it. *)
Definition custom_event (_premessage : Message -> PreMessage) (message : Message) : M unit :=
  self <- self_user ;;
  if re_match_ping (message_content message)
     && negb (user_id (message_author message) =? user_id self)
  then PreMessage_try_send (_premessage message) (message_channel message)
  else ret tt.

(* ===================================================================== *)
(** ** The spec's reading of the event filter                             *)
(* ===================================================================== *)

(** Following the spec's words: a reaction qualifies iff it is on the
    prompt, by the target, and the emote set is empty or holds its symbol. *)
Definition qualifies (message : Message) (target : User) (emotes : option (list Emote))
    (reaction : Reaction) (reactor : User) : Prop :=
  message_id (reaction_message reaction) = message_id message
  /\ user_eq reactor target = true
  /\ match emotes with
     | None => True
     | Some es => es = [] \/ In (str (reaction_emoji reaction)) (map str es)
     end.

(** Following the spec's words: a message is a reply iff it is in the
    wait's channel and written by the target. *)
Definition is_reply (channel : Channel) (target : User) (message : Message) : bool :=
  (channel_id (message_channel message) =? channel_id channel)
  && (user_id (message_author message) =? user_id target).

(** The entries of the cleanup step of a reaction wait. *)
Definition is_cleanup (l : LogEntry) : bool :=
  match l with
  | Done (Delete _) | Done (ClearReactions _) => true
  | _ => false
  end.

(** The value the reaction predicate returns, read off its last two
    statements. *)
Definition accepts (message : Message) (target : User) (emotes : option (list Emote))
    (reaction : Reaction) (reactor : User) : bool :=
  negb (user_ne reactor target
        || negb (message_id (reaction_message reaction) =? message_id message))
  && match emotes with
     | None => true
     | Some es =>
         (List.length es =? 0)%nat
         || existsb (String.eqb (str (reaction_emoji reaction))) (map str es)
     end.

(** Whether the reaction predicate schedules the removal of the reaction:
    the test of its first statement. *)
Definition removes (message : Message) (self : User) (reaction : Reaction) (reactor : User) : bool :=
  (message_id (reaction_message reaction) =? message_id message)
  && negb (user_id reactor =? user_id self).

(** The events a wait looks at: those up to and including the first one
    its predicate accepts. *)
Fixpoint observed {E} (accept : E -> bool) (events : list E) : list E :=
  match events with
  | [] => []
  | ev :: rest => if accept ev then [ev] else ev :: observed accept rest
  end.

(** What the reaction predicate logs for one event. *)
Definition removal_entry (message : Message) (self : User) (ev : Reaction * User) : list LogEntry :=
  if removes message self (fst ev) (snd ev)
  then [Scheduled (RemoveReaction (fst ev) (snd ev))]
  else [].

(** The cleanup entry of a reaction wait. *)
Definition cleanup_entry (delete_after : bool) (message : Message) : LogEntry :=
  Done (if delete_after then Delete message else ClearReactions message).

(** Following the spec's words: under the forbid policy a message is
    foreign when it is in the wait's channel and its author is neither the
    target nor the bot itself. *)
Definition foreign (channel : Channel) (target self : User) (message : Message) : bool :=
  (channel_id (message_channel message) =? channel_id channel)
  && negb ((user_id (message_author message) =? user_id target)
           || (user_id (message_author message) =? user_id self)).

(** What the forbidding predicate logs for one message. *)
Definition forbid_entries (channel : Channel) (target : User) (notice : PreMessage)
    (self : User) (message : Message) : list LogEntry :=
  if foreign channel target self message
  then [Scheduled (Delete message); Scheduled (Send notice channel)]
  else [].

(** The notice [check_message] works on before it raises its
    [delete_after]. *)
Definition chosen_notice (target : User) (forbid_premessage : option PreMessage) : PreMessage :=
  match forbid_premessage with
  | None => BotPlus.default_forbid_premessage target
  | Some p => p
  end.

(** Whether [check_message] gets as far as building a predicate. *)
Definition builds_check (target : User) (forbid : bool)
    (forbid_premessage : option PreMessage) : bool :=
  negb forbid
  || match delete_after (chosen_notice target forbid_premessage) with
     | Some _ => true
     | None => false
     end.

(** Following the spec's words: the label of a module, from its two
    flags (a disabled module is never attached, any other is). *)
Definition status_label (c : CogPlus.cls) : string :=
  if CogPlus.__disabled__ c
  then (if CogPlus.__beta__ c then CogPlus.Status.BetaDisabled else CogPlus.Status.Disabled)
  else (if CogPlus.__beta__ c then CogPlus.Status.BetaEnabled else CogPlus.Status.Enabled).

Definition is_enabled (c : CogPlus.cls) : bool := negb (CogPlus.__disabled__ c).

(** The attached dict and the console lines a setup script leaves. *)
Definition attached_of (classes : list CogPlus.cls) : list (string * Cog) :=
  map (fun c => (CogPlus.qualified_name c, c)) (filter is_enabled classes).

Definition beta_line (c : CogPlus.cls) : LogEntry :=
  Done (Print (BotPlus.dquote ++ CogPlus.qualified_name c ++ BotPlus.dquote
               ++ " is in beta status but it has been activated")%string).

Definition announced (classes : list CogPlus.cls) : list LogEntry :=
  map beta_line (filter CogPlus.__beta__ (filter is_enabled classes)).

Definition four_labels : list string :=
  [CogPlus.Status.Enabled; CogPlus.Status.BetaEnabled;
   CogPlus.Status.Disabled; CogPlus.Status.BetaDisabled].

(** The pairs [cogs_status] hands to [dict] after a setup script. *)
Definition status_pairs (classes : list CogPlus.cls) : list (string * string) :=
  map (fun c => (CogPlus.qualified_name c, status_label c)) (filter is_enabled classes)
  ++ map (fun c => (CogPlus.qualified_name c, status_label c))
       (filter CogPlus.__disabled__ classes).

(* ===================================================================== *)
(** ** Concrete inputs                                                    *)
(* ===================================================================== *)

Definition bot0 : Bot := mkBot (mkUser 1 "<@1>") [] [] [].
Definition alice : User := mkUser 7 "<@7>".
Definition bob : User := mkUser 8 "<@8>".
Definition lobby : Channel := mkChannel 100.
Definition prompt : Message := mkMessage 500 lobby (user bot0) "Proceed?".
Definition proceed : PreMessage := mkPreMessage (Some "Proceed?") None None.
Definition wait_your_turn : PreMessage := mkPreMessage (Some "Wait your turn") None (Some 5).
Definition yes_by (u : User) : Reaction * User := (mkReaction prompt (Unicode BotPlus.affirm), u).
Definition no_by (u : User) : Reaction * User := (mkReaction prompt (Unicode BotPlus.deny), u).
Definition say (id : Z) (u : User) (text : string) : Message := mkMessage id lobby u text.
Definition music : CogPlus.cls := CogPlus.mkCls "Music" false false.
Definition polls : CogPlus.cls := CogPlus.beta (CogPlus.disabled (CogPlus.mkCls "Polls" false false)).
Definition games : CogPlus.cls := CogPlus.beta (CogPlus.mkCls "Games" false false).
Definition webhook : API.t := API.mk (Some "s3cret").
Definition upvote : API.Request :=
  API.mkRequest (Some "s3cret") (Some (API.JObject [("type", PyStr "upvote")])) [] [].
Definition chat : Env Message :=
  mkEnv (Val prompt) [say 501 bob "hi"; say 502 alice "hello"] TimeoutError.
Definition refused : Env Message :=
  mkEnv (Exc (OtherError "Forbidden")) [say 502 alice "hello"] TimeoutError.

Definition quiet : Env (Reaction * User) :=
  mkEnv (Val prompt) [yes_by bob] TimeoutError.
Definition busy : Env (Reaction * User) :=
  mkEnv (Val prompt) [yes_by bob; no_by alice; yes_by alice] TimeoutError.

Definition elsewhere : Channel := mkChannel 200.
Definition patient : PreMessage := mkPreMessage (Some "One at a time") None (Some 60).

Definition teapot : API.Request :=
  API.mkRequest (Some "s3cret") (Some (API.JObject [("type", PyStr "teapot")]))
    [("type", PyStr "upvote")] [("type", PyStr "test")].
Definition listing : API.Request :=
  API.mkRequest (Some "s3cret") (Some (API.JOther true)) [("type", PyStr "upvote")] [].

Definition admin : CogPlus.cls := CogPlus.mkCls "Admin" false false.
Definition admin_off : CogPlus.cls := CogPlus.disabled (CogPlus.mkCls "Admin" false false).
Definition admin_beta : CogPlus.cls := CogPlus.beta (CogPlus.mkCls "Admin" false false).

Definition no_dirs : FileSystem := mkFileSystem (fun _ => false) (fun _ => []).
Definition cogs_dir : FileSystem :=
  mkFileSystem (String.eqb "cogs")
    (fun path => if String.eqb path "cogs" then ["admin.py"; "music.py"] else []).
Definition imports_fine : string -> Res unit := fun _ => Val tt.
Definition imports_but (bad : string) : string -> Res unit :=
  fun name => if String.eqb name bad then Exc (OtherError "ModuleNotFoundError") else Val tt.

Definition at_disabled : PyObj -> M PyObj := fun cls => lift (CogPlus_disabled cls).
Definition at_beta : PyObj -> M PyObj := fun cls => lift (CogPlus_beta cls).
Definition fresh_host : CogLib.Host := CogLib.mkHost bot0 None false.

(** [n] blanks. *)
Fixpoint blanks (n : nat) : string :=
  match n with
  | O => EmptyString
  | S n' => String " " (blanks n')
  end.

Definition my_prefix : Message -> PreMessage :=
  fun _ => mkPreMessage (Some "My prefix is !") None None.

Definition polls_plain : CogPlus.cls := CogPlus.disabled (CogPlus.mkCls "Polls" false false).
Definition array_body : API.HttpRequest :=
  API.mkHttpRequest (Some "s3cret") (Val (Some (API.JOther true))) [("type", PyStr "upvote")] [].
Definition broken_body : API.HttpRequest :=
  API.mkHttpRequest (Some "s3cret") (Exc (OtherError "BadRequest")) [] [].

(* ===================================================================== *)
(** ** Descriptions used by the further properties                        *)
(* ===================================================================== *)

(** The registry as [load_cog] keeps it: attached names are distinct, no
    attached cog is a disabled one, the side list holds disabled ones only. *)
Definition registry_ok (b : Bot) : Prop :=
  NoDup (map fst (cogs b))
  /\ Forall (fun entry => CogPlus.__disabled__ (snd entry) = false) (cogs b)
  /\ Forall (fun cog => CogPlus.__disabled__ cog = true) (disabled_cogs b).

(** The label [cogs_status] computes for an attached cog and for a cog of
    the side list. *)
Definition attached_label (cog : Cog) : string :=
  if CogPlus.__beta__ cog then CogPlus.Status.BetaEnabled else CogPlus.Status.Enabled.

Definition side_label (cog : Cog) : string :=
  if CogPlus.__beta__ cog then CogPlus.Status.BetaDisabled else CogPlus.Status.Disabled.

(** What the [finally] block of [get_answer] logs: with [delete_after],
    the deletion of the prompt, then that of the reply if there is one. *)
Definition answer_cleanup (del : bool) (message : Message) (respond : option Message)
    : list LogEntry :=
  if del
  then Done (Delete message)
       :: match respond with
          | Some r => [Done (Delete r)]
          | None => []
          end
  else [].

(* ===================================================================== *)
(** ** The monad and the log                                              *)
(* ===================================================================== *)

Lemma logged_nil (b : Bot) : logged b [] = b.
Proof. destruct b; unfold logged; simpl. now rewrite app_nil_r. Qed.

Lemma logged_logged (b : Bot) (l1 l2 : list LogEntry) :
  logged (logged b l1) l2 = logged b (l1 ++ l2).
Proof. unfold logged; simpl. now rewrite app_assoc. Qed.

Lemma user_logged (b : Bot) (l : list LogEntry) : user (logged b l) = user b.
Proof. reflexivity. Qed.

Lemma existsb_eqb_In (s : string) (l : list string) :
  existsb (String.eqb s) l = true <-> In s l.
Proof.
  rewrite existsb_exists. split.
  - intros [x [Hin Heq]]. apply String.eqb_eq in Heq. now subst.
  - intros Hin. exists s. split; [assumption | apply String.eqb_refl].
Qed.

(* ===================================================================== *)
(** ** The reaction filter                                                *)
(* ===================================================================== *)

Lemma check_reaction_run (message : Message) (target : User)
    (emotes : option (list Emote)) (reaction : Reaction) (reactor : User) (b : Bot) :
  BotPlus.check_reaction message target emotes (reaction, reactor) b
  = (Val (accepts message target emotes reaction reactor),
     if removes message (user b) reaction reactor
     then logged b [Scheduled (RemoveReaction reaction reactor)]
     else b).
Proof.
  unfold BotPlus.check_reaction, accepts, removes, bind, self_user, ensure_future, emit, ret.
  destruct ((message_id (reaction_message reaction) =? message_id message)
            && negb (user_id reactor =? user_id (user b))); simpl;
    destruct (user_ne reactor target
              || negb (message_id (reaction_message reaction) =? message_id message));
    reflexivity.
Qed.

Lemma accepts_iff (message : Message) (target : User) (emotes : option (list Emote))
    (reaction : Reaction) (reactor : User) :
  accepts message target emotes reaction reactor = true
  <-> qualifies message target emotes reaction reactor.
Proof.
  unfold accepts, qualifies, user_ne.
  rewrite andb_true_iff, negb_true_iff, orb_false_iff, !negb_false_iff, Z.eqb_eq.
  split.
  - intros [[Hu Hm] He]. repeat split; try assumption.
    destruct emotes as [es|]; [|exact I].
    apply orb_true_iff in He. destruct He as [He|He].
    + left. destruct es; [reflexivity | discriminate].
    + right. now apply existsb_eqb_In.
  - intros [Hm [Hu He]]. repeat split; try assumption.
    destruct emotes as [es|]; [|reflexivity].
    apply orb_true_iff. destruct He as [He|He].
    + left. now subst.
    + right. now apply existsb_eqb_In.
Qed.

(** C1: the predicate built by [check_reaction] returns a boolean, and it
    returns [True] exactly when the reaction is on the prompt message, the
    reacting user equals the target, and the emote set is absent, empty or
    holds (in string form) the string form of the reaction's emoji. *)
Theorem check_reaction_qualifies_iff
    (message : Message) (target : User) (emotes : option (list Emote))
    (reaction : Reaction) (reactor : User) (b : Bot) :
  exists ok : bool,
    fst (BotPlus.check_reaction message target emotes (reaction, reactor) b) = Val ok
    /\ (ok = true <-> qualifies message target emotes reaction reactor)
    /\ (ok = false <-> ~ qualifies message target emotes reaction reactor).
Proof.
  exists (accepts message target emotes reaction reactor).
  rewrite check_reaction_run. simpl. split; [reflexivity|].
  pose proof (accepts_iff message target emotes reaction reactor) as H.
  split; [exact H|].
  destruct (accepts message target emotes reaction reactor).
  - split; [discriminate | intros Hn; exfalso; apply Hn, H; reflexivity].
  - split; [intros _ Hq; apply H in Hq; discriminate | reflexivity].
Qed.

(** C8: on the prompt message, a reaction by a user who is neither the bot
    nor the target gets its removal scheduled (once) and does not qualify;
    a reaction by the bot's own user schedules nothing. *)
Theorem check_reaction_removes_foreign
    (message : Message) (target : User) (emotes : option (list Emote))
    (reaction : Reaction) (reactor : User) (b : Bot) :
  (message_id (reaction_message reaction) = message_id message ->
   user_id reactor <> user_id (user b) ->
   user_eq reactor target = false ->
   BotPlus.check_reaction message target emotes (reaction, reactor) b
   = (Val false, logged b [Scheduled (RemoveReaction reaction reactor)]))
  /\ (user_id reactor = user_id (user b) ->
      snd (BotPlus.check_reaction message target emotes (reaction, reactor) b) = b).
Proof.
  rewrite check_reaction_run. unfold removes, accepts, user_ne. split.
  - intros Hm Hu Ht. rewrite Ht.
    apply Z.eqb_eq in Hm. apply Z.eqb_neq in Hu. rewrite Hm, Hu. reflexivity.
  - intros Hu. apply Z.eqb_eq in Hu. rewrite Hu, andb_false_r. reflexivity.
Qed.

Lemma check_reaction_removes_foreign_witness :
  BotPlus.check_reaction prompt alice None (mkReaction prompt (Unicode "x"), bob) bot0
  = (Val false, logged bot0 [Scheduled (RemoveReaction (mkReaction prompt (Unicode "x")) bob)])
  /\ snd (BotPlus.check_reaction prompt alice None
            (mkReaction prompt (Unicode "x"), user bot0) bot0) = bot0.
Proof.
  split.
  - apply (proj1 (check_reaction_removes_foreign prompt alice None
                    (mkReaction prompt (Unicode "x")) bob bot0)).
    + reflexivity.
    + simpl; lia.
    + reflexivity.
  - apply (proj2 (check_reaction_removes_foreign prompt alice None
                    (mkReaction prompt (Unicode "x")) (user bot0) bot0)).
    reflexivity.
Defined.

(** C10: on the prompt message, every reaction by a user other than the
    bot gets its removal scheduled, whatever the predicate answers; the
    target's own qualifying reaction is removed like any other. *)
Theorem check_reaction_removes_qualifying
    (message : Message) (target : User) (emotes : option (list Emote))
    (reaction : Reaction) (reactor : User) (b : Bot) :
  message_id (reaction_message reaction) = message_id message ->
  user_id reactor <> user_id (user b) ->
  snd (BotPlus.check_reaction message target emotes (reaction, reactor) b)
  = logged b [Scheduled (RemoveReaction reaction reactor)]
  /\ (qualifies message target emotes reaction reactor ->
      BotPlus.check_reaction message target emotes (reaction, reactor) b
      = (Val true, logged b [Scheduled (RemoveReaction reaction reactor)])).
Proof.
  intros Hm Hu. rewrite check_reaction_run. unfold removes.
  apply Z.eqb_eq in Hm. apply Z.eqb_neq in Hu. rewrite Hm, Hu. simpl.
  split; [reflexivity|].
  intros Hq. apply accepts_iff in Hq. now rewrite Hq.
Qed.

Lemma check_reaction_removes_qualifying_witness :
  BotPlus.check_reaction prompt alice (Some [Unicode BotPlus.affirm; Unicode BotPlus.deny])
    (mkReaction prompt (Unicode BotPlus.affirm), alice) bot0
  = (Val true,
     logged bot0 [Scheduled (RemoveReaction (mkReaction prompt (Unicode BotPlus.affirm)) alice)]).
Proof.
  apply (proj2 (check_reaction_removes_qualifying prompt alice
                  (Some [Unicode BotPlus.affirm; Unicode BotPlus.deny])
                  (mkReaction prompt (Unicode BotPlus.affirm)) alice bot0
                  eq_refl ltac:(simpl; lia))).
  unfold qualifies. simpl. repeat split. right. left. reflexivity.
Defined.

(* ===================================================================== *)
(** ** Waiting                                                            *)
(* ===================================================================== *)

(** A predicate that answers [accept ev] and logs [entries self ev] makes
    the wait return the first accepted event, or raise what ends the wait. *)
Lemma wait_for_events_run {E} (check : E -> M bool) (accept : E -> bool)
    (entries : User -> E -> list LogEntry) :
  (forall ev b, check ev b = (Val (accept ev), logged b (entries (user b) ev))) ->
  forall events ending b,
    wait_for_events check events ending b
    = (match find accept events with
       | Some ev => Val ev
       | None => Exc ending
       end,
       logged b (flat_map (entries (user b)) (observed accept events))).
Proof.
  intros Hcheck events ending.
  induction events as [|ev rest IH]; intros b; simpl.
  - unfold raise. now rewrite logged_nil.
  - unfold bind. rewrite Hcheck. destruct (accept ev); simpl.
    + unfold ret. now rewrite app_nil_r.
    + rewrite IH, user_logged, logged_logged. reflexivity.
Qed.

Lemma check_reaction_entries (message : Message) (target : User)
    (emotes : option (list Emote)) (ev : Reaction * User) (b : Bot) :
  BotPlus.check_reaction message target emotes ev b
  = (Val (accepts message target emotes (fst ev) (snd ev)),
     logged b (removal_entry message (user b) ev)).
Proof.
  destruct ev as [reaction reactor]. rewrite check_reaction_run.
  unfold removal_entry; simpl.
  destruct (removes message (user b) reaction reactor); [reflexivity|].
  now rewrite logged_nil.
Qed.

Lemma filter_cleanup_removals (message : Message) (self : User) (events : list (Reaction * User)) :
  filter is_cleanup (flat_map (removal_entry message self) events) = [].
Proof.
  induction events as [|ev rest IH]; simpl; [reflexivity|].
  rewrite filter_app, IH, app_nil_r. unfold removal_entry.
  destruct (removes message self (fst ev) (snd ev)); reflexivity.
Qed.

(* ===================================================================== *)
(** ** [get_reaction] and [confirm]                                       *)
(* ===================================================================== *)

(** One run of [get_reaction] once the prompt is sent: the outcome of the
    wait stands, and the log gains the send, the initial reactions, the
    removals scheduled by the predicate and one cleanup entry. *)
Lemma get_reaction_run (channel : Channel) (premessage : PreMessage) (target : User)
    (timeout : option Z) (delete_after : bool) (emotes : option (list Emote))
    (env : Env (Reaction * User)) (message : Message) (b : Bot) :
  sent env = Val message ->
  BotPlus.get_reaction channel premessage target timeout delete_after emotes env b
  = (match find (fun ev => accepts message target emotes (fst ev) (snd ev)) (incoming env) with
     | Some ev => Val (Some (reaction_emoji (fst ev)))
     | None => Exc (ending env)
     end,
     logged b ([Done (Send premessage channel); Done (AddReactions message emotes)]
               ++ flat_map (removal_entry message (user b))
                    (observed (fun ev => accepts message target emotes (fst ev) (snd ev))
                       (incoming env))
               ++ [cleanup_entry delete_after message])).
Proof.
  intros Hsent.
  unfold BotPlus.get_reaction, PreMessage_send, try_add_reaction, try_finally, wait_for,
    bind, await, emit, lift, ret.
  rewrite Hsent.
  rewrite (wait_for_events_run _ _ _ (check_reaction_entries message target emotes)).
  rewrite !user_logged, !logged_logged.
  destruct (find _ (incoming env)) as [ev|];
    destruct delete_after; simpl; rewrite !logged_logged; reflexivity.
Qed.

(** C7: once the prompt is sent, every run of [get_reaction] (resolved,
    timed out, or ended by an exception raised while waiting) logs exactly
    one cleanup step: the deletion of the prompt when [delete_after] is
    true, the clearing of its reactions otherwise. *)
Theorem get_reaction_cleanup_exactly_once
    (channel : Channel) (premessage : PreMessage) (target : User)
    (timeout : option Z) (delete_after : bool) (emotes : option (list Emote))
    (env : Env (Reaction * User)) (message : Message) (b : Bot) :
  sent env = Val message ->
  exists added : list LogEntry,
    snd (BotPlus.get_reaction channel premessage target timeout delete_after emotes env b)
    = logged b added
    /\ filter is_cleanup added
       = [Done (if delete_after then Delete message else ClearReactions message)].
Proof.
  intros Hsent. rewrite (get_reaction_run _ _ _ _ _ _ _ message b Hsent). simpl.
  eexists. split; [reflexivity|].
  simpl. rewrite filter_app, filter_cleanup_removals. simpl.
  unfold cleanup_entry. destruct delete_after; reflexivity.
Qed.

(** C3, as the code has it: when the timeout ends the wait and no
    dispatched reaction qualifies, [get_reaction] cleans up and then
    raises [TimeoutError]; it does not return [None]. *)
Theorem get_reaction_timeout_raises
    (channel : Channel) (premessage : PreMessage) (target : User)
    (timeout : option Z) (delete_after : bool) (emotes : option (list Emote))
    (env : Env (Reaction * User)) (message : Message) (b : Bot) :
  sent env = Val message ->
  ending env = TimeoutError ->
  (forall ev, In ev (incoming env) -> ~ qualifies message target emotes (fst ev) (snd ev)) ->
  fst (BotPlus.get_reaction channel premessage target timeout delete_after emotes env b)
  = Exc TimeoutError.
Proof.
  intros Hsent Hend Hnone. rewrite (get_reaction_run _ _ _ _ _ _ _ message b Hsent). simpl.
  destruct (find _ (incoming env)) as [ev|] eqn:Hfind.
  - apply find_some in Hfind. destruct Hfind as [Hin Hacc].
    apply accepts_iff in Hacc. exfalso. exact (Hnone ev Hin Hacc).
  - now rewrite Hend.
Qed.

Lemma get_reaction_cleanup_exactly_once_witness :
  exists added : list LogEntry,
    snd (BotPlus.get_reaction lobby proceed alice (Some 30) false None
           (mkEnv (Val prompt) [yes_by bob] TimeoutError) bot0)
    = logged bot0 added
    /\ filter is_cleanup added = [Done (ClearReactions prompt)].
Proof.
  apply (get_reaction_cleanup_exactly_once lobby proceed alice (Some 30) false None
           (mkEnv (Val prompt) [yes_by bob] TimeoutError) prompt bot0).
  reflexivity.
Defined.

Lemma get_reaction_timeout_raises_witness :
  fst (BotPlus.get_reaction lobby proceed alice (Some 30) false None
         (mkEnv (Val prompt) [yes_by bob] TimeoutError) bot0)
  = Exc TimeoutError.
Proof.
  apply (get_reaction_timeout_raises lobby proceed alice (Some 30) false None
           (mkEnv (Val prompt) [yes_by bob] TimeoutError) prompt bot0).
  - reflexivity.
  - reflexivity.
  - intros ev [Hev | []]. subst ev. unfold qualifies. simpl.
    intros [_ [Hu _]]. discriminate Hu.
Defined.

Lemma accepted_confirm_emoji (message : Message) (target : User)
    (reaction : Reaction) (reactor : User) :
  accepts message target (Some [Unicode BotPlus.affirm; Unicode BotPlus.deny])
    reaction reactor = true ->
  reaction_emoji reaction = Unicode BotPlus.affirm
  \/ reaction_emoji reaction = Unicode BotPlus.deny.
Proof.
  intros H. apply accepts_iff in H. destruct H as [_ [_ [H | H]]]; [discriminate|].
  simpl in H. destruct (reaction_emoji reaction) as [s | animated name id]; simpl in H.
  - destruct H as [H | [H | []]]; [left | right]; now rewrite H.
  - destruct H as [H | [H | []]]; discriminate H.
Qed.

(** What holds of [confirm]: it is [get_reaction] with the emote list
    [✅; ❌] followed by the mapping of its answer; once the prompt is sent, the reaction
    that resolves the wait carries one of the two symbols, ✅ gives [True]
    and ❌ gives [False]; the answer [None] is mapped to [None]. *)
Theorem confirm_maps_answer
    (channel : Channel) (premessage : PreMessage) (target : User)
    (timeout : option Z) (delete_after : bool)
    (env : Env (Reaction * User)) (message : Message) (b : Bot) :
  sent env = Val message ->
  let two := Some [Unicode BotPlus.affirm; Unicode BotPlus.deny] in
  BotPlus.confirm channel premessage target timeout delete_after env b
  = (match BotPlus.get_reaction channel premessage target timeout delete_after two env b with
     | (Val emoji, b') => (Val (BotPlus.confirm_answer emoji), b')
     | (Exc e, b') => (Exc e, b')
     end)
  /\ In (Done (AddReactions message two))
        (log (snd (BotPlus.confirm channel premessage target timeout delete_after env b)))
  /\ (forall ev,
        find (fun ev => accepts message target two (fst ev) (snd ev)) (incoming env) = Some ev ->
        (reaction_emoji (fst ev) = Unicode BotPlus.affirm
         \/ reaction_emoji (fst ev) = Unicode BotPlus.deny)
        /\ (reaction_emoji (fst ev) = Unicode BotPlus.affirm ->
            fst (BotPlus.confirm channel premessage target timeout delete_after env b)
            = Val (Some true))
        /\ (reaction_emoji (fst ev) = Unicode BotPlus.deny ->
            fst (BotPlus.confirm channel premessage target timeout delete_after env b)
            = Val (Some false)))
  /\ BotPlus.confirm_answer None = None.
Proof.
  intros Hsent two.
  assert (Hdef : BotPlus.confirm channel premessage target timeout delete_after env b
                 = (match BotPlus.get_reaction channel premessage target timeout
                            delete_after two env b with
                    | (Val emoji, b') => (Val (BotPlus.confirm_answer emoji), b')
                    | (Exc e, b') => (Exc e, b')
                    end)).
  { unfold BotPlus.confirm, bind, ret. fold two.
    destruct (BotPlus.get_reaction channel premessage target timeout delete_after two env b)
      as [[emoji | e] b']; reflexivity. }
  split; [exact Hdef|].
  rewrite Hdef, (get_reaction_run _ _ _ _ _ _ _ message b Hsent).
  split; [|split; [|reflexivity]].
  - destruct (find _ (incoming env)); simpl; apply in_or_app; right;
      right; left; reflexivity.
  - intros ev Hfind. rewrite Hfind. simpl.
    apply find_some in Hfind. destruct Hfind as [_ Hacc].
    split; [exact (accepted_confirm_emoji _ _ _ _ Hacc)|].
    split; intros He; rewrite He; reflexivity.
Qed.

Lemma confirm_maps_answer_witness :
  fst (BotPlus.confirm lobby proceed alice (Some 30) false
         (mkEnv (Val prompt) [yes_by bob; no_by alice; yes_by alice] TimeoutError) bot0)
  = Val (Some false).
Proof.
  destruct (confirm_maps_answer lobby proceed alice (Some 30) false
              (mkEnv (Val prompt) [yes_by bob; no_by alice; yes_by alice] TimeoutError)
              prompt bot0 eq_refl) as [_ [_ [H _]]].
  destruct (H (no_by alice) eq_refl) as [_ [_ Hdeny]].
  exact (Hdeny eq_refl).
Defined.

(* ===================================================================== *)
(** ** The message filter and [get_answer]                                *)
(* ===================================================================== *)

Lemma check_plain_run (channel : Channel) (target : User) (message : Message) (b : Bot) :
  BotPlus.check_plain channel target message b
  = (Val (is_reply channel target message), logged b []).
Proof. unfold BotPlus.check_plain, ret, is_reply. now rewrite logged_nil. Qed.

Lemma check_forbidding_run (channel : Channel) (target : User) (notice : PreMessage)
    (message : Message) (b : Bot) :
  BotPlus.check_forbidding channel target notice message b
  = (Val (is_reply channel target message),
     logged b (forbid_entries channel target notice (user b) message)).
Proof.
  unfold BotPlus.check_forbidding, forbid_entries, foreign, is_reply,
    bind, self_user, ensure_future, emit, ret.
  destruct (channel_id (message_channel message) =? channel_id channel); simpl.
  - destruct (user_id (message_author message) =? user_id target); simpl.
    + now rewrite logged_nil.
    + destruct (user_id (message_author message) =? user_id (user b)); simpl.
      * now rewrite logged_nil.
      * now rewrite logged_logged.
  - now rewrite logged_nil.
Qed.

Lemma check_message_plain (channel : Channel) (target : User)
    (forbid_premessage : option PreMessage) (b : Bot) :
  BotPlus.check_message channel target false forbid_premessage b
  = (Val (BotPlus.check_plain channel target), b).
Proof. reflexivity. Qed.

Lemma check_message_forbid (channel : Channel) (target : User)
    (forbid_premessage : option PreMessage) (d : Z) (b : Bot) :
  delete_after (chosen_notice target forbid_premessage) = Some d ->
  BotPlus.check_message channel target true forbid_premessage b
  = (Val (BotPlus.check_forbidding channel target
            (set_delete_after (chosen_notice target forbid_premessage) (Some (Z.max d 20)))),
     b).
Proof.
  intros Hd. unfold BotPlus.check_message, bind, lift, ret. fold (chosen_notice target forbid_premessage).
  rewrite Hd. simpl.
  replace (if d <? 20 then 20 else d) with (Z.max d 20); [reflexivity|].
  destruct (Z.ltb_spec d 20); lia.
Qed.

Lemma check_message_forbid_raises (channel : Channel) (target : User)
    (forbid_premessage : option PreMessage) (b : Bot) :
  delete_after (chosen_notice target forbid_premessage) = None ->
  BotPlus.check_message channel target true forbid_premessage b = (Exc TypeError, b).
Proof.
  intros Hd. unfold BotPlus.check_message, bind, lift, ret. fold (chosen_notice target forbid_premessage).
  now rewrite Hd.
Qed.

(** The value [get_answer] hands back once the prompt is sent. *)
Lemma get_answer_value (channel : Channel) (premessage : PreMessage) (target : User)
    (timeout : option Z) (del : bool) (forbid : bool)
    (forbid_premessage : option PreMessage)
    (env : Env Message) (message : Message) (b : Bot) :
  sent env = Val message ->
  fst (BotPlus.get_answer channel premessage target timeout del forbid
         forbid_premessage env b)
  = Val (if builds_check target forbid forbid_premessage
         then option_map message_content (find (is_reply channel target) (incoming env))
         else None).
Proof.
  intros Hsent.
  unfold BotPlus.get_answer, PreMessage_send, try_finally_return, wait_for, builds_check.
  unfold bind at 1. unfold await, emit. unfold bind at 1. unfold lift. rewrite Hsent.
  destruct forbid; simpl negb; cbv beta iota.
  - destruct (delete_after (chosen_notice target forbid_premessage)) as [d|] eqn:Hd.
    + unfold bind at 1. rewrite (check_message_forbid _ _ _ d _ Hd).
      unfold bind at 1.
      rewrite (wait_for_events_run _ _ _ (check_forbidding_run channel target _)).
      destruct (find (is_reply channel target) (incoming env)) as [respond|];
        destruct del; reflexivity.
    + unfold bind at 1. rewrite (check_message_forbid_raises _ _ _ _ Hd).
      destruct del; reflexivity.
  - unfold bind at 1. rewrite check_message_plain.
    unfold bind at 1.
    rewrite (wait_for_events_run _ _ (fun _ _ => []) (check_plain_run channel target)).
    destruct (find (is_reply channel target) (incoming env)) as [respond|];
      destruct del; reflexivity.
Qed.

(** C9, as stated, fails: the prompt is sent before the [try] block, so a
    send that raises leaves [get_answer] through that exception. *)
Lemma get_answer_raises_when_send_raises :
  fst (BotPlus.get_answer lobby proceed alice (Some 30) false false None refused bot0)
  = Exc (OtherError "Forbidden").
Proof. reflexivity. Qed.

(** C9, amended: once the prompt is sent, [get_answer] never raises; it
    returns [None] when no reply qualifies before the wait ends (by timeout
    or by any exception), and the text of the first qualifying reply when
    the wait was started, that is, when [check_message] built its
    predicate; when [check_message] raised instead, it returns [None]
    whatever was written. *)
Theorem get_answer_never_raises_once_sent
    (channel : Channel) (premessage : PreMessage) (target : User)
    (timeout : option Z) (del : bool) (forbid : bool)
    (forbid_premessage : option PreMessage)
    (env : Env Message) (message : Message) (b : Bot) :
  sent env = Val message ->
  (exists answer : option string,
     fst (BotPlus.get_answer channel premessage target timeout del forbid
            forbid_premessage env b) = Val answer)
  /\ (find (is_reply channel target) (incoming env) = None ->
      fst (BotPlus.get_answer channel premessage target timeout del forbid
             forbid_premessage env b) = Val None)
  /\ (forall respond,
        find (is_reply channel target) (incoming env) = Some respond ->
        builds_check target forbid forbid_premessage = true ->
        fst (BotPlus.get_answer channel premessage target timeout del forbid
               forbid_premessage env b) = Val (Some (message_content respond)))
  /\ (builds_check target forbid forbid_premessage = false ->
      fst (BotPlus.get_answer channel premessage target timeout del forbid
             forbid_premessage env b) = Val None).
Proof.
  intros Hsent. rewrite (get_answer_value _ _ _ _ _ _ _ _ message b Hsent).
  split; [eexists; reflexivity|]. split; [|split].
  - intros Hnone. rewrite Hnone. now destruct (builds_check target forbid forbid_premessage).
  - intros respond Hfind Hbuilds. now rewrite Hfind, Hbuilds.
  - intros Hbuilds. now rewrite Hbuilds.
Qed.

Lemma get_answer_never_raises_once_sent_witness :
  fst (BotPlus.get_answer lobby proceed alice (Some 30) true false None chat bot0)
  = Val (Some "hello")
  /\ fst (BotPlus.get_answer lobby proceed alice (Some 30) true true None chat bot0)
     = Val None.
Proof.
  split.
  - apply (proj1 (proj2 (proj2 (get_answer_never_raises_once_sent lobby proceed alice
                                  (Some 30) true false None chat prompt bot0 eq_refl)))
             (say 502 alice "hello")).
    + reflexivity.
    + reflexivity.
  - apply (proj2 (proj2 (proj2 (get_answer_never_raises_once_sent lobby proceed alice
                                  (Some 30) true true None chat prompt bot0 eq_refl)))).
    reflexivity.
Defined.

(** C2, as stated, fails twice over.  With no notice supplied, the
    standardized one has no [delete_after], [max] raises inside
    [check_message], and [get_answer] returns [None] at once: the foreign
    message is neither deleted nor answered.  With a notice supplied, that
    notice is what gets posted, not the standardized one. *)
Lemma forbid_notice_counterexample :
  BotPlus.get_answer lobby proceed alice (Some 30) false true None chat bot0
  = (Val None, logged bot0 [Done (Send proceed lobby)])
  /\ BotPlus.get_answer lobby proceed alice (Some 30) false true (Some wait_your_turn) chat bot0
     = (Val (Some "hello"),
        logged bot0 [Done (Send proceed lobby);
                     Scheduled (Delete (say 501 bob "hi"));
                     Scheduled (Send (mkPreMessage (Some "Wait your turn") None (Some 20)) lobby)]).
Proof. split; reflexivity. Qed.

(** C2, amended: with a supplied notice whose [delete_after] is a number
    [d], [check_message] builds a predicate which, on a message in the
    wait's channel by an author who is neither the target nor the bot,
    returns [False], schedules the deletion of that message and schedules
    one post of the supplied notice with [delete_after] raised to
    [max d 20], which is at least 20. *)
Theorem check_message_forbids_foreign
    (channel : Channel) (target : User) (notice : PreMessage) (d : Z)
    (message : Message) (b b' : Bot) :
  delete_after notice = Some d ->
  channel_id (message_channel message) = channel_id channel ->
  user_id (message_author message) <> user_id target ->
  user_id (message_author message) <> user_id (user b') ->
  exists (check : Message -> M bool) (posted : PreMessage) (d' : Z),
    BotPlus.check_message channel target true (Some notice) b = (Val check, b)
    /\ posted = set_delete_after notice (Some d')
    /\ d' = Z.max d 20
    /\ 20 <= d'
    /\ check message b'
       = (Val false,
          logged b' [Scheduled (Delete message); Scheduled (Send posted channel)]).
Proof.
  intros Hd Hc Ht Hs.
  exists (BotPlus.check_forbidding channel target (set_delete_after notice (Some (Z.max d 20)))),
    (set_delete_after notice (Some (Z.max d 20))), (Z.max d 20).
  split; [exact (check_message_forbid channel target (Some notice) d b Hd)|].
  split; [reflexivity|]. split; [reflexivity|]. split; [lia|].
  rewrite check_forbidding_run. unfold is_reply, forbid_entries, foreign.
  apply Z.eqb_eq in Hc. apply Z.eqb_neq in Ht. apply Z.eqb_neq in Hs.
  now rewrite Hc, Ht, Hs.
Qed.

Lemma check_message_forbids_foreign_witness :
  exists (check : Message -> M bool) (posted : PreMessage) (d' : Z),
    BotPlus.check_message lobby alice true (Some wait_your_turn) bot0 = (Val check, bot0)
    /\ posted = set_delete_after wait_your_turn (Some d')
    /\ d' = Z.max 5 20
    /\ 20 <= d'
    /\ check (say 501 bob "hi") bot0
       = (Val false,
          logged bot0 [Scheduled (Delete (say 501 bob "hi")); Scheduled (Send posted lobby)]).
Proof.
  apply (check_message_forbids_foreign lobby alice wait_your_turn 5 (say 501 bob "hi") bot0 bot0).
  - reflexivity.
  - reflexivity.
  - simpl; lia.
  - simpl; lia.
Defined.

(* ===================================================================== *)
(** ** The vote webhook                                                   *)
(* ===================================================================== *)

Lemma option_string_eqb_eq (a b : option string) :
  API.option_string_eqb a b = true <-> a = b.
Proof.
  destruct a as [x|], b as [y|]; simpl; split; intros H;
    try discriminate; try reflexivity.
  - apply String.eqb_eq in H. now subst.
  - injection H as ->. apply String.eqb_refl.
Qed.

Lemma pyval_eq_str_eq (v : option PyVal) (s : string) :
  pyval_eq_str v s = true <-> v = Some (PyStr s).
Proof.
  destruct v as [[s'|]|]; simpl; split; intros H; try discriminate.
  - apply String.eqb_eq in H. now subst.
  - injection H as ->. apply String.eqb_refl.
Qed.

Lemma vote_authorized (self : API.t) (request : API.Request) (secret : string) :
  API._auth self = Some secret ->
  API.authorization request = Some secret ->
  API.option_string_eqb (API._auth self) (API.authorization request)
  && API.is_not_None (API._auth self) = true.
Proof.
  intros Ha Hr. rewrite Ha, Hr. simpl. now rewrite String.eqb_refl.
Qed.

(** For a payload that is a mapping, [vote] is as the spec has it: it
    answers 401 and dispatches nothing unless a credential is
    configured and the Authorization header equals it; with the right
    credential and a mapping as payload, type ["upvote"] dispatches one
    [vote] event and answers 200, type ["test"] dispatches one [test_vote]
    event and answers 200, and any other or missing type answers 401 and
    dispatches nothing. *)
Theorem vote_responses (self : API.t) (request : API.Request) (b : Bot) :
  ((API._auth self = None \/ API.authorization request <> API._auth self) ->
   API.vote self request b = (Val (API.mkResponse 401), b))
  /\ (forall (secret : string) (data : Dict),
        API._auth self = Some secret ->
        API.authorization request = Some secret ->
        API.request_data request = Some data ->
        (dict_get data "type" = Some (PyStr "upvote") ->
         API.vote self request b
         = (Val (API.mkResponse 200), logged b [Done (Dispatch "vote" data)]))
        /\ (dict_get data "type" = Some (PyStr "test") ->
            API.vote self request b
            = (Val (API.mkResponse 200), logged b [Done (Dispatch "test_vote" data)]))
        /\ (dict_get data "type" <> Some (PyStr "upvote") ->
            dict_get data "type" <> Some (PyStr "test") ->
            API.vote self request b = (Val (API.mkResponse 401), b))).
Proof.
  split.
  - intros Hno. unfold API.vote.
    destruct (API.option_string_eqb (API._auth self) (API.authorization request)
              && API.is_not_None (API._auth self)) eqn:Hok; [|reflexivity].
    apply andb_true_iff in Hok. destruct Hok as [Heq Hsome].
    apply option_string_eqb_eq in Heq. destruct Hno as [Hnone | Hne].
    + rewrite Hnone in Hsome. discriminate.
    + exfalso. apply Hne. now symmetry.
  - intros secret data Ha Hr Hdata. unfold API.vote.
    rewrite (vote_authorized self request secret Ha Hr), Hdata.
    split; [|split].
    + intros Hty. rewrite Hty. reflexivity.
    + intros Hty. rewrite Hty. reflexivity.
    + intros Hup Htest.
      destruct (pyval_eq_str (dict_get data "type") "upvote") eqn:E1.
      { apply pyval_eq_str_eq in E1. contradiction. }
      destruct (pyval_eq_str (dict_get data "type") "test") eqn:E2.
      { apply pyval_eq_str_eq in E2. contradiction. }
      reflexivity.
Qed.

Lemma vote_responses_witness :
  API.vote webhook upvote bot0
  = (Val (API.mkResponse 200),
     logged bot0 [Done (Dispatch "vote" [("type", PyStr "upvote")])])
  /\ API.vote webhook
       (API.mkRequest (Some "guess") (Some (API.JObject [("type", PyStr "upvote")])) [] [])
       bot0
     = (Val (API.mkResponse 401), bot0).
Proof.
  split.
  - apply (proj1 (proj2 (vote_responses webhook upvote bot0)
                    "s3cret" [("type", PyStr "upvote")] eq_refl eq_refl eq_refl)).
    reflexivity.
  - apply (proj1 (vote_responses webhook
                    (API.mkRequest (Some "guess")
                       (Some (API.JObject [("type", PyStr "upvote")])) [] [])
                    bot0)).
    right. simpl. discriminate.
Defined.

(* ===================================================================== *)
(** ** Dicts                                                              *)
(* ===================================================================== *)

Section Dicts.

Context {V : Type}.
Implicit Types (d : list (string * V)) (k : string) (v : V).

Lemma dict_set_fresh d k v :
  ~ In k (map fst d) -> dict_set d k v = d ++ [(k, v)].
Proof.
  induction d as [|[k' v'] rest IH]; simpl; intros Hk; [reflexivity|].
  destruct (String.eqb_spec k' k) as [->|Hne].
  - exfalso. apply Hk. now left.
  - rewrite IH; [reflexivity|]. intros Hin. apply Hk. now right.
Qed.

Lemma dict_get_fresh d k :
  ~ In k (map fst d) -> dict_get d k = None.
Proof.
  induction d as [|[k' v'] rest IH]; simpl; intros Hk; [reflexivity|].
  destruct (String.eqb_spec k' k) as [->|Hne].
  - exfalso. apply Hk. now left.
  - apply IH. intros Hin. apply Hk. now right.
Qed.

Lemma dict_get_In d k v :
  NoDup (map fst d) -> In (k, v) d -> dict_get d k = Some v.
Proof.
  induction d as [|[k' v'] rest IH]; simpl; intros Hnd Hin; [contradiction|].
  inversion Hnd as [|? ? Hfresh Hrest]; subst.
  destruct Hin as [Heq | Hin].
  - injection Heq as -> ->. now rewrite String.eqb_refl.
  - destruct (String.eqb_spec k' k) as [->|Hne].
    + exfalso. apply Hfresh. change k with (fst (k, v)). now apply in_map.
    + now apply IH.
Qed.

Lemma dict_of_fold d (pairs : list (string * V)) :
  NoDup (map fst (d ++ pairs)) ->
  fold_left (fun d kv => dict_set d (fst kv) (snd kv)) pairs d = d ++ pairs.
Proof.
  revert d. induction pairs as [|[k v] rest IH]; intros d Hnd; simpl.
  - now rewrite app_nil_r.
  - assert (Hfresh : ~ In k (map fst d)).
    { rewrite map_app in Hnd. simpl in Hnd.
      apply NoDup_remove_2 in Hnd. intros Hin. apply Hnd, in_or_app. now left. }
    rewrite (dict_set_fresh d k v Hfresh), IH; rewrite <- app_assoc; [reflexivity|exact Hnd].
Qed.

Lemma dict_of_NoDup (pairs : list (string * V)) :
  NoDup (map fst pairs) -> dict_of pairs = pairs.
Proof. intros Hnd. unfold dict_of. now rewrite dict_of_fold. Qed.

End Dicts.

(* ===================================================================== *)
(** ** The cog registry                                                   *)
(* ===================================================================== *)

Lemma load_cog_disabled (c : CogPlus.cls) (b : Bot) :
  CogPlus.__disabled__ c = true ->
  BotPlus.load_cog (CogSubclass c) b
  = (Val tt, mkBot (user b) (cogs b) (disabled_cogs b ++ [c]) (log b)).
Proof. intros Hd. unfold BotPlus.load_cog. now rewrite Hd. Qed.

Lemma load_cog_enabled (c : CogPlus.cls) (b : Bot) :
  CogPlus.__disabled__ c = false ->
  BotPlus.load_cog (CogSubclass c) b
  = (Val tt,
     mkBot (user b) (dict_set (cogs b) (CogPlus.qualified_name c) c) (disabled_cogs b)
       (log b ++ if CogPlus.__beta__ c then [beta_line c] else [])).
Proof.
  intros Hd. unfold BotPlus.load_cog, BotPlus.add_cog, bind, emit, logged, ret.
  rewrite Hd. simpl. destruct (CogPlus.__beta__ c); simpl; [reflexivity|].
  now rewrite app_nil_r.
Qed.

Lemma names_attached_of (classes : list CogPlus.cls) :
  map fst (attached_of classes) = map CogPlus.qualified_name (filter is_enabled classes).
Proof. unfold attached_of. rewrite map_map. reflexivity. Qed.

Lemma In_filter_names (keep : CogPlus.cls -> bool) (classes : list CogPlus.cls) (name : string) :
  In name (map CogPlus.qualified_name (filter keep classes)) ->
  In name (map CogPlus.qualified_name classes).
Proof.
  intros Hin. apply in_map_iff in Hin. destruct Hin as [c [Hname Hc]].
  apply filter_In in Hc. apply in_map_iff. exists c. tauto.
Qed.

(** A setup script over classes with fresh, distinct names. *)
Lemma load_cogs_run (classes : list CogPlus.cls) :
  forall b : Bot,
    NoDup (map fst (cogs b) ++ map CogPlus.qualified_name classes) ->
    BotPlus.load_cogs (map CogSubclass classes) b
    = (Val tt,
       mkBot (user b)
         (cogs b ++ attached_of classes)
         (disabled_cogs b ++ filter CogPlus.__disabled__ classes)
         (log b ++ announced classes)).
Proof.
  induction classes as [|c rest IH]; intros b Hnd.
  - simpl. unfold ret, attached_of, announced. simpl. rewrite !app_nil_r. now destruct b.
  - change (BotPlus.load_cogs (map CogSubclass (c :: rest)) b)
      with (bind (BotPlus.load_cog (CogSubclass c))
              (fun _ => BotPlus.load_cogs (map CogSubclass rest)) b).
    simpl in Hnd. unfold bind, attached_of, announced, is_enabled. simpl filter.
    destruct (CogPlus.__disabled__ c) eqn:Hd; simpl negb; cbv iota.
    + rewrite (load_cog_disabled c b Hd), IH; simpl.
      * now rewrite <- app_assoc.
      * apply NoDup_remove_1 in Hnd. exact Hnd.
    + rewrite (load_cog_enabled c b Hd).
      assert (Hfresh : ~ In (CogPlus.qualified_name c) (map fst (cogs b))).
      { apply NoDup_remove_2 in Hnd. intros Hin. apply Hnd, in_or_app. now left. }
      rewrite (dict_set_fresh _ _ _ Hfresh), IH; simpl.
      * rewrite <- !app_assoc. unfold attached_of, announced, is_enabled.
        destruct (CogPlus.__beta__ c); reflexivity.
      * rewrite map_app. simpl. rewrite <- app_assoc. simpl. exact Hnd.
Qed.

Lemma NoDup_split_names (classes : list CogPlus.cls) :
  NoDup (map CogPlus.qualified_name classes) ->
  NoDup (map CogPlus.qualified_name (filter is_enabled classes)
         ++ map CogPlus.qualified_name (filter CogPlus.__disabled__ classes)).
Proof.
  induction classes as [|c rest IH]; simpl; intros Hnd; [constructor|].
  inversion Hnd as [|? ? Hfresh Hrest]; subst.
  unfold is_enabled at 1. destruct (CogPlus.__disabled__ c); simpl.
  - apply NoDup_Add with (a := CogPlus.qualified_name c)
                         (l := map CogPlus.qualified_name (filter is_enabled rest)
                               ++ map CogPlus.qualified_name (filter CogPlus.__disabled__ rest)).
    + apply Add_app.
    + split; [now apply IH|].
      intros Hin. apply Hfresh. apply in_app_or in Hin.
      destruct Hin as [Hin | Hin]; now apply In_filter_names in Hin.
  - constructor; [|now apply IH].
    intros Hin. apply Hfresh. apply in_app_or in Hin.
    destruct Hin as [Hin | Hin]; now apply In_filter_names in Hin.
Qed.

Lemma NoDup_app_disjoint {A} (l1 l2 : list A) (x : A) :
  NoDup (l1 ++ l2) -> In x l1 -> In x l2 -> False.
Proof.
  induction l1 as [|a l1 IH]; simpl; intros Hnd H1 H2; [contradiction|].
  inversion Hnd as [|? ? Hfresh Hrest]; subst. destruct H1 as [-> | H1].
  - apply Hfresh, in_or_app. now right.
  - now apply IH.
Qed.

Lemma status_label_four (c : CogPlus.cls) : In (status_label c) four_labels.
Proof.
  unfold status_label, four_labels.
  destruct (CogPlus.__disabled__ c), (CogPlus.__beta__ c); simpl; tauto.
Qed.

Lemma names_status_pairs (classes : list CogPlus.cls) :
  map fst (status_pairs classes)
  = map CogPlus.qualified_name (filter is_enabled classes)
    ++ map CogPlus.qualified_name (filter CogPlus.__disabled__ classes).
Proof. unfold status_pairs. rewrite map_app, !map_map. reflexivity. Qed.

Lemma In_status_pairs (classes : list CogPlus.cls) (c : CogPlus.cls) :
  In c classes -> In (CogPlus.qualified_name c, status_label c) (status_pairs classes).
Proof.
  intros Hin. unfold status_pairs. apply in_or_app.
  destruct (CogPlus.__disabled__ c) eqn:Hd; [right | left];
    apply in_map_iff; exists c; (split; [reflexivity|]);
    apply filter_In; (split; [assumption|]); unfold is_enabled; now rewrite Hd.
Qed.

(** After a setup script from an empty registry, the status query works
    on [status_pairs]. *)
Lemma cogs_status_after (classes : list CogPlus.cls) (b : Bot) :
  BotPlus.cogs_status
    (mkBot (user b) (attached_of classes) (filter CogPlus.__disabled__ classes)
       (log b ++ announced classes))
  = dict_of (status_pairs classes).
Proof.
  unfold BotPlus.cogs_status, status_pairs, attached_of. simpl. rewrite map_map.
  f_equal. f_equal.
  - apply map_ext_in. intros c Hc. apply filter_In in Hc. destruct Hc as [_ Hen].
    unfold is_enabled in Hen. apply negb_true_iff in Hen.
    unfold status_label. now rewrite Hen.
  - apply map_ext_in. intros c Hc. apply filter_In in Hc. destruct Hc as [_ Hd].
    unfold status_label. now rewrite Hd.
Qed.

(** The fresh registry with distinct names.  [load_cog] on a class whose
    disabled flag is set appends its cog
    to the side list and leaves the attached cogs as they are.  After
    registering classes with distinct names on a fresh bot, no attached cog
    is a disabled one; a class whose disabled flag is set sits in the side
    list and has no entry among the attached cogs; the status query has one
    entry per name, each with one of the four labels, and gives every
    registered class the label of its two flags: BetaDisabled for disabled
    and beta, Enabled for an attached class with both flags off. *)
Theorem load_cog_status (classes : list CogPlus.cls) (b : Bot) (c : CogPlus.cls) :
  (CogPlus.__disabled__ c = true ->
   forall b0 : Bot,
     BotPlus.load_cog (CogSubclass c) b0
     = (Val tt, mkBot (user b0) (cogs b0) (disabled_cogs b0 ++ [c]) (log b0)))
  /\ (cogs b = [] ->
      disabled_cogs b = [] ->
      NoDup (map CogPlus.qualified_name classes) ->
      In c classes ->
      exists b' : Bot,
        BotPlus.load_cogs (map CogSubclass classes) b = (Val tt, b')
        /\ (forall name cog, In (name, cog) (cogs b') -> CogPlus.__disabled__ cog = false)
        /\ (CogPlus.__disabled__ c = true ->
            In c (disabled_cogs b')
            /\ dict_get (cogs b') (CogPlus.qualified_name c) = None)
        /\ (CogPlus.__disabled__ c = false ->
            dict_get (cogs b') (CogPlus.qualified_name c) = Some c)
        /\ NoDup (map fst (BotPlus.cogs_status b'))
        /\ (forall name label,
              In (name, label) (BotPlus.cogs_status b') -> In label four_labels)
        /\ dict_get (BotPlus.cogs_status b') (CogPlus.qualified_name c)
           = Some (status_label c)
        /\ (CogPlus.__disabled__ c = true -> CogPlus.__beta__ c = true ->
            dict_get (BotPlus.cogs_status b') (CogPlus.qualified_name c)
            = Some CogPlus.Status.BetaDisabled)
        /\ (CogPlus.__disabled__ c = false -> CogPlus.__beta__ c = false ->
            dict_get (BotPlus.cogs_status b') (CogPlus.qualified_name c)
            = Some CogPlus.Status.Enabled)).
Proof.
  split; [intros Hd b0; exact (load_cog_disabled c b0 Hd)|].
  intros Hcogs Hside Hnd Hin.
  exists (mkBot (user b) (attached_of classes) (filter CogPlus.__disabled__ classes)
            (log b ++ announced classes)).
  split.
  { rewrite load_cogs_run; [now rewrite Hcogs, Hside | now rewrite Hcogs]. }
  pose proof (NoDup_split_names classes Hnd) as Hsplit.
  assert (Hstatus : BotPlus.cogs_status
                      (mkBot (user b) (attached_of classes)
                         (filter CogPlus.__disabled__ classes) (log b ++ announced classes))
                    = status_pairs classes).
  { rewrite cogs_status_after. apply dict_of_NoDup. now rewrite names_status_pairs. }
  rewrite Hstatus. simpl cogs. simpl disabled_cogs.
  assert (Hlabel : dict_get (status_pairs classes) (CogPlus.qualified_name c)
                   = Some (status_label c)).
  { apply dict_get_In; [now rewrite names_status_pairs | now apply In_status_pairs]. }
  assert (Hattached : NoDup (map fst (attached_of classes))).
  { rewrite names_attached_of. now apply NoDup_app_remove_r in Hsplit. }
  split.
  { intros name cog Hcog. unfold attached_of in Hcog. apply in_map_iff in Hcog.
    destruct Hcog as [c' [Heq Hc']]. injection Heq as _ <-.
    apply filter_In in Hc'. destruct Hc' as [_ Hen].
    unfold is_enabled in Hen. now apply negb_true_iff in Hen. }
  split.
  { intros Hd. split; [apply filter_In; now split|].
    apply dict_get_fresh. rewrite names_attached_of. intros Hname.
    apply (NoDup_app_disjoint _ _ _ Hsplit Hname).
    apply in_map. apply filter_In. now split. }
  split.
  { intros Hen. apply dict_get_In; [exact Hattached|].
    unfold attached_of. apply in_map_iff. exists c. split; [reflexivity|].
    apply filter_In. split; [assumption|]. unfold is_enabled. now rewrite Hen. }
  split; [now rewrite names_status_pairs|].
  split.
  { intros name label Hpair. unfold status_pairs in Hpair. apply in_app_or in Hpair.
    destruct Hpair as [Hpair | Hpair]; apply in_map_iff in Hpair;
      destruct Hpair as [c' [Heq _]]; injection Heq as _ <-; apply status_label_four. }
  split; [exact Hlabel|].
  split; intros Hd Hb; rewrite Hlabel; unfold status_label; now rewrite Hd, Hb.
Qed.

Lemma load_cog_status_witness :
  BotPlus.load_cog (CogSubclass polls) bot0 = (Val tt, mkBot (user bot0) [] [polls] [])
  /\ exists b' : Bot,
       BotPlus.load_cogs (map CogSubclass [music; polls; games]) bot0 = (Val tt, b')
       /\ In polls (disabled_cogs b')
       /\ dict_get (cogs b') "Polls" = None
       /\ dict_get (BotPlus.cogs_status b') "Polls" = Some "BetaDisabled".
Proof.
  destruct (load_cog_status [music; polls; games] bot0 polls) as [Hstep Hrun].
  split; [exact (Hstep eq_refl bot0)|].
  destruct (Hrun eq_refl eq_refl) as [b' H].
  - repeat constructor; simpl; intuition discriminate.
  - simpl; tauto.
  - exists b'. destruct H as [Hb' [_ [Hside [_ [_ [_ [_ [Hbeta _]]]]]]]].
    destruct (Hside eq_refl) as [Hin Hnone].
    repeat split; [exact Hb' | exact Hin | exact Hnone | exact (Hbeta eq_refl eq_refl)].
Defined.

(* ===================================================================== *)
(** ** Further properties of the waits                                    *)
(* ===================================================================== *)

Lemma find_first {E} (accept : E -> bool) (before after : list E) (ev : E) :
  Forall (fun x => accept x = false) before ->
  accept ev = true ->
  find accept (before ++ ev :: after) = Some ev.
Proof.
  induction before as [|x before IH]; simpl; intros Hb Hev.
  - now rewrite Hev.
  - inversion Hb as [|? ? Hx Hrest]; subst. rewrite Hx. now apply IH.
Qed.

Lemma observed_first {E} (accept : E -> bool) (before after : list E) (ev : E) :
  Forall (fun x => accept x = false) before ->
  accept ev = true ->
  observed accept (before ++ ev :: after) = before ++ [ev].
Proof.
  induction before as [|x before IH]; simpl; intros Hb Hev.
  - now rewrite Hev.
  - inversion Hb as [|? ? Hx Hrest]; subst. rewrite Hx. f_equal. now apply IH.
Qed.

Lemma not_qualifies_accepts (message : Message) (target : User)
    (emotes : option (list Emote)) (events : list (Reaction * User)) :
  Forall (fun ev => ~ qualifies message target emotes (fst ev) (snd ev)) events ->
  Forall (fun ev => accepts message target emotes (fst ev) (snd ev) = false) events.
Proof.
  intros H. apply Forall_forall. intros ev Hin.
  rewrite Forall_forall in H. specialize (H ev Hin).
  destruct (accepts message target emotes (fst ev) (snd ev)) eqn:Hacc; [|reflexivity].
  exfalso. apply H. now apply accepts_iff.
Qed.

(** X1: once the prompt is sent, [get_reaction] returns the emoji of the
    first qualifying reaction; the predicate has looked at the reactions up
    to and including that one, in order, and at none after it. *)
Theorem get_reaction_returns_first_qualifying
    (channel : Channel) (premessage : PreMessage) (target : User)
    (timeout : option Z) (del : bool) (emotes : option (list Emote))
    (env : Env (Reaction * User)) (message : Message) (b : Bot)
    (before after : list (Reaction * User)) (ev : Reaction * User) :
  sent env = Val message ->
  incoming env = before ++ ev :: after ->
  Forall (fun x => ~ qualifies message target emotes (fst x) (snd x)) before ->
  qualifies message target emotes (fst ev) (snd ev) ->
  BotPlus.get_reaction channel premessage target timeout del emotes env b
  = (Val (Some (reaction_emoji (fst ev))),
     logged b ([Done (Send premessage channel); Done (AddReactions message emotes)]
               ++ flat_map (removal_entry message (user b)) (before ++ [ev])
               ++ [cleanup_entry del message])).
Proof.
  intros Hsent Hin Hbefore Hev.
  rewrite (get_reaction_run _ _ _ _ _ _ _ message b Hsent), Hin.
  apply not_qualifies_accepts in Hbefore. apply accepts_iff in Hev.
  rewrite (find_first (fun x => accepts message target emotes (fst x) (snd x))
             before after ev Hbefore Hev).
  rewrite (observed_first (fun x => accepts message target emotes (fst x) (snd x))
             before after ev Hbefore Hev).
  reflexivity.
Qed.

Lemma get_reaction_returns_first_qualifying_witness :
  BotPlus.get_reaction lobby proceed alice (Some 30) false None busy bot0
  = (Val (Some (Unicode BotPlus.deny)),
     logged bot0 ([Done (Send proceed lobby); Done (AddReactions prompt None)]
                  ++ flat_map (removal_entry prompt (user bot0)) ([yes_by bob] ++ [no_by alice])
                  ++ [cleanup_entry false prompt])).
Proof.
  apply (get_reaction_returns_first_qualifying lobby proceed alice (Some 30) false None
           busy prompt bot0 [yes_by bob] [yes_by alice] (no_by alice)).
  - reflexivity.
  - reflexivity.
  - constructor; [|constructor]. unfold qualifies. simpl. intros [_ [Hu _]]. discriminate Hu.
  - unfold qualifies. simpl. repeat split.
Defined.

Lemma get_reaction_outcome
    (channel : Channel) (premessage : PreMessage) (target : User)
    (timeout : option Z) (del : bool) (emotes : option (list Emote))
    (env : Env (Reaction * User)) (b : Bot) :
  (exists emoji : Emote,
     fst (BotPlus.get_reaction channel premessage target timeout del emotes env b)
     = Val (Some emoji))
  \/ (exists e : Exn,
        fst (BotPlus.get_reaction channel premessage target timeout del emotes env b)
        = Exc e).
Proof.
  destruct (sent env) as [message | e] eqn:Hsent.
  - rewrite (get_reaction_run _ _ _ _ _ _ _ message b Hsent). simpl.
    destruct (find _ (incoming env)) as [ev|].
    + left. eexists. reflexivity.
    + right. eexists. reflexivity.
  - right. exists e.
    unfold BotPlus.get_reaction, PreMessage_send, bind, await, emit, lift.
    now rewrite Hsent.
Qed.

(** X2: [get_reaction] never returns [None]: it returns the emoji of a
    reaction or leaves through an exception (that of the send, or the one
    that ended the wait). *)
Theorem get_reaction_never_returns_None
    (channel : Channel) (premessage : PreMessage) (target : User)
    (timeout : option Z) (del : bool) (emotes : option (list Emote))
    (env : Env (Reaction * User)) (b : Bot) :
  (exists emoji : Emote,
     fst (BotPlus.get_reaction channel premessage target timeout del emotes env b)
     = Val (Some emoji))
  \/ (exists e : Exn,
        fst (BotPlus.get_reaction channel premessage target timeout del emotes env b)
        = Exc e).
Proof.
  exact (get_reaction_outcome channel premessage target timeout del
           emotes env b).
Qed.

(** X3: when the send of the prompt raises, [get_reaction] and
    [get_answer] leave through that exception at once: no reaction is
    attached, no event is looked at and no cleanup runs. *)
Theorem failed_send_ends_the_call
    (channel : Channel) (premessage : PreMessage) (target : User)
    (timeout : option Z) (del forbid : bool) (emotes : option (list Emote))
    (forbid_premessage : option PreMessage)
    (renv : Env (Reaction * User)) (menv : Env Message) (e : Exn) (b : Bot) :
  (sent renv = Exc e ->
   BotPlus.get_reaction channel premessage target timeout del emotes renv b
   = (Exc e, logged b [Done (Send premessage channel)]))
  /\ (sent menv = Exc e ->
      BotPlus.get_answer channel premessage target timeout del forbid forbid_premessage menv b
      = (Exc e, logged b [Done (Send premessage channel)])).
Proof.
  split; intros Hsent.
  - unfold BotPlus.get_reaction, PreMessage_send, bind, await, emit, lift.
    now rewrite Hsent.
  - unfold BotPlus.get_answer, PreMessage_send, bind, await, emit, lift.
    now rewrite Hsent.
Qed.

Lemma failed_send_ends_the_call_witness :
  BotPlus.get_reaction lobby proceed alice (Some 30) true None
    (mkEnv (Exc (OtherError "Forbidden")) [yes_by alice] TimeoutError) bot0
  = (Exc (OtherError "Forbidden"), logged bot0 [Done (Send proceed lobby)])
  /\ BotPlus.get_answer lobby proceed alice (Some 30) true false None refused bot0
     = (Exc (OtherError "Forbidden"), logged bot0 [Done (Send proceed lobby)]).
Proof.
  destruct (failed_send_ends_the_call lobby proceed alice (Some 30) true false None None
              (mkEnv (Exc (OtherError "Forbidden")) [yes_by alice] TimeoutError)
              refused (OtherError "Forbidden") bot0) as [Hr Ha].
  split; [exact (Hr eq_refl) | exact (Ha eq_refl)].
Defined.

(** X4: [confirm] returns [True] or [False] or raises, never [None]; when
    the prompt is sent, the timeout ends the wait and no reaction
    qualified, it raises [TimeoutError]. *)
Theorem confirm_never_returns_None
    (channel : Channel) (premessage : PreMessage) (target : User)
    (timeout : option Z) (del : bool)
    (env : Env (Reaction * User)) (b : Bot) :
  ((exists yes : bool,
      fst (BotPlus.confirm channel premessage target timeout del env b) = Val (Some yes))
   \/ (exists e : Exn,
         fst (BotPlus.confirm channel premessage target timeout del env b) = Exc e))
  /\ (forall message : Message,
        sent env = Val message ->
        ending env = TimeoutError ->
        (forall ev, In ev (incoming env) ->
           ~ qualifies message target (Some [Unicode BotPlus.affirm; Unicode BotPlus.deny])
               (fst ev) (snd ev)) ->
        fst (BotPlus.confirm channel premessage target timeout del env b) = Exc TimeoutError).
Proof.
  assert (Hdef : forall r b',
            BotPlus.get_reaction channel premessage target timeout del
              (Some [Unicode BotPlus.affirm; Unicode BotPlus.deny]) env b = (r, b') ->
            fst (BotPlus.confirm channel premessage target timeout del env b)
            = match r with
              | Val emoji => Val (BotPlus.confirm_answer emoji)
              | Exc e => Exc e
              end).
  { intros r b' Hrun. unfold BotPlus.confirm, bind, ret. rewrite Hrun. now destruct r. }
  destruct (BotPlus.get_reaction channel premessage target timeout del
              (Some [Unicode BotPlus.affirm; Unicode BotPlus.deny]) env b) as [r b'] eqn:Hrun.
  rewrite (Hdef r b' eq_refl).
  split.
  - destruct (get_reaction_outcome channel premessage target timeout del
                (Some [Unicode BotPlus.affirm; Unicode BotPlus.deny]) env b) as [[emoji H] | [e H]];
      rewrite Hrun in H; simpl in H; subst r.
    + left. eexists. reflexivity.
    + right. eexists. reflexivity.
  - intros message Hsent Hend Hnone.
    rewrite (get_reaction_run _ _ _ _ _ _ _ message b Hsent) in Hrun.
    injection Hrun as Hr _. subst r.
    destruct (find _ (incoming env)) as [ev|] eqn:Hfind.
    + apply find_some in Hfind. destruct Hfind as [Hin Hacc].
      apply accepts_iff in Hacc. exfalso. exact (Hnone ev Hin Hacc).
    + now rewrite Hend.
Qed.

Lemma confirm_never_returns_None_witness :
  fst (BotPlus.confirm lobby proceed alice (Some 30) false quiet bot0) = Exc TimeoutError.
Proof.
  apply (proj2 (confirm_never_returns_None lobby proceed alice (Some 30) false quiet bot0)
           prompt eq_refl eq_refl).
  intros ev [Hev | []]. subst ev. unfold qualifies. simpl.
  intros [_ [Hu _]]. discriminate Hu.
Defined.

(** The whole run of [get_answer] when [check_message] builds a predicate
    that answers [is_reply] and logs [entries]. *)
Lemma get_answer_run_with (channel : Channel) (premessage : PreMessage) (target : User)
    (timeout : option Z) (del forbid : bool) (forbid_premessage : option PreMessage)
    (env : Env Message) (message : Message) (b : Bot)
    (check : Message -> M bool) (entries : User -> Message -> list LogEntry) :
  sent env = Val message ->
  (forall b', BotPlus.check_message channel target forbid forbid_premessage b'
              = (Val check, b')) ->
  (forall m b', check m b' = (Val (is_reply channel target m), logged b' (entries (user b') m))) ->
  BotPlus.get_answer channel premessage target timeout del forbid forbid_premessage env b
  = (Val (option_map message_content (find (is_reply channel target) (incoming env))),
     logged b (Done (Send premessage channel)
               :: flat_map (entries (user b)) (observed (is_reply channel target) (incoming env))
               ++ answer_cleanup del message (find (is_reply channel target) (incoming env)))).
Proof.
  intros Hsent Hbuild Hcheck.
  unfold BotPlus.get_answer, PreMessage_send, try_finally_return, wait_for.
  unfold bind at 1. unfold await, emit. unfold bind at 1. unfold lift. rewrite Hsent.
  unfold bind at 1. rewrite Hbuild. unfold bind at 1.
  rewrite (wait_for_events_run _ _ _ Hcheck).
  rewrite user_logged, logged_logged. unfold answer_cleanup.
  destruct (find (is_reply channel target) (incoming env)) as [respond|]; destruct del;
    unfold try_delete, bind, await, emit, ret; simpl;
    rewrite ?logged_logged; simpl; rewrite ?app_nil_r; try reflexivity;
    rewrite <- ?app_assoc; reflexivity.
Qed.

(** X5: without the forbid policy and once the prompt is sent,
    [get_answer] returns the text of the first message written by the
    target in the channel ([None] if there is none) and schedules nothing:
    its only effects are the send and, with [delete_after], the deletion of
    the prompt followed by that of the reply; other people's messages are
    left alone. *)
Theorem get_answer_without_forbid
    (channel : Channel) (premessage : PreMessage) (target : User)
    (timeout : option Z) (del : bool) (forbid_premessage : option PreMessage)
    (env : Env Message) (message : Message) (b : Bot) :
  sent env = Val message ->
  BotPlus.get_answer channel premessage target timeout del false forbid_premessage env b
  = (Val (option_map message_content (find (is_reply channel target) (incoming env))),
     logged b (Done (Send premessage channel)
               :: answer_cleanup del message (find (is_reply channel target) (incoming env)))).
Proof.
  intros Hsent.
  rewrite (get_answer_run_with channel premessage target timeout del false forbid_premessage
             env message b (BotPlus.check_plain channel target) (fun _ _ => []) Hsent).
  - f_equal. f_equal. f_equal.
    induction (observed (is_reply channel target) (incoming env)); [reflexivity | assumption].
  - intros b'. reflexivity.
  - intros m b'. apply check_plain_run.
Qed.

Lemma get_answer_without_forbid_witness :
  BotPlus.get_answer lobby proceed alice (Some 30) true false None chat bot0
  = (Val (Some "hello"),
     logged bot0 [Done (Send proceed lobby); Done (Delete prompt);
                  Done (Delete (say 502 alice "hello"))]).
Proof.
  apply (get_answer_without_forbid lobby proceed alice (Some 30) true None chat prompt bot0).
  reflexivity.
Defined.

(** X6: under the forbid policy with a notice whose [delete_after] is a
    number [d], and once the prompt is sent, [get_answer] goes through the
    messages up to the first reply of the target, in order: each foreign
    one gets one scheduled deletion and one scheduled post of the notice
    (with [delete_after] at [max d 20]), the others nothing; messages after
    the reply are not touched; the reply's text is returned. *)
Theorem get_answer_with_forbid
    (channel : Channel) (premessage : PreMessage) (target : User)
    (timeout : option Z) (del : bool) (notice : PreMessage) (d : Z)
    (env : Env Message) (message : Message) (b : Bot) :
  sent env = Val message ->
  delete_after notice = Some d ->
  BotPlus.get_answer channel premessage target timeout del true (Some notice) env b
  = (Val (option_map message_content (find (is_reply channel target) (incoming env))),
     logged b (Done (Send premessage channel)
               :: flat_map (forbid_entries channel target
                              (set_delete_after notice (Some (Z.max d 20))) (user b))
                    (observed (is_reply channel target) (incoming env))
               ++ answer_cleanup del message (find (is_reply channel target) (incoming env)))).
Proof.
  intros Hsent Hd.
  apply (get_answer_run_with channel premessage target timeout del true (Some notice)
           env message b
           (BotPlus.check_forbidding channel target
              (set_delete_after notice (Some (Z.max d 20))))
           (forbid_entries channel target (set_delete_after notice (Some (Z.max d 20))))
           Hsent).
  - intros b'. exact (check_message_forbid channel target (Some notice) d b' Hd).
  - intros m b'. apply check_forbidding_run.
Qed.

Lemma get_answer_with_forbid_witness :
  BotPlus.get_answer lobby proceed alice (Some 30) false true (Some wait_your_turn)
    (mkEnv (Val prompt)
       [say 501 bob "hi"; say 502 alice "hello"; say 503 bob "me too"] TimeoutError) bot0
  = (Val (Some "hello"),
     logged bot0 [Done (Send proceed lobby);
                  Scheduled (Delete (say 501 bob "hi"));
                  Scheduled (Send (set_delete_after wait_your_turn (Some 20)) lobby)]).
Proof.
  apply (get_answer_with_forbid lobby proceed alice (Some 30) false wait_your_turn 5
           (mkEnv (Val prompt)
              [say 501 bob "hi"; say 502 alice "hello"; say 503 bob "me too"] TimeoutError)
           prompt bot0).
  - reflexivity.
  - reflexivity.
Defined.

(** X7: under the forbid policy with a notice that has no [delete_after]
    (the default notice is one), and once the prompt is sent, [get_answer]
    returns [None] at once: no message is looked at, nothing is scheduled,
    and with [delete_after] only the prompt is deleted. *)
Theorem get_answer_forbid_without_delay
    (channel : Channel) (premessage : PreMessage) (target : User)
    (timeout : option Z) (del : bool) (forbid_premessage : option PreMessage)
    (env : Env Message) (message : Message) (b : Bot) :
  sent env = Val message ->
  delete_after (chosen_notice target forbid_premessage) = None ->
  BotPlus.get_answer channel premessage target timeout del true forbid_premessage env b
  = (Val None,
     logged b (Done (Send premessage channel) :: answer_cleanup del message None)).
Proof.
  intros Hsent Hd.
  unfold BotPlus.get_answer, PreMessage_send, try_finally_return, wait_for.
  unfold bind at 1. unfold await, emit. unfold bind at 1. unfold lift. rewrite Hsent.
  unfold bind at 1. rewrite (check_message_forbid_raises _ _ _ _ Hd).
  destruct del; unfold answer_cleanup, try_delete, bind, await, emit, ret; simpl;
    rewrite ?logged_logged, ?logged_nil; reflexivity.
Qed.

Lemma get_answer_forbid_without_delay_witness :
  BotPlus.get_answer lobby proceed alice (Some 30) true true None chat bot0
  = (Val None, logged bot0 [Done (Send proceed lobby); Done (Delete prompt)]).
Proof.
  apply (get_answer_forbid_without_delay lobby proceed alice (Some 30) true None chat
           prompt bot0); reflexivity.
Defined.

(* ===================================================================== *)
(** ** Further properties of the filters                                  *)
(* ===================================================================== *)

(** X8: a reaction on any message other than the prompt never qualifies
    and is never removed, whoever reacts and whatever the emote set. *)
Theorem check_reaction_ignores_other_messages
    (message : Message) (target : User) (emotes : option (list Emote))
    (reaction : Reaction) (reactor : User) (b : Bot) :
  message_id (reaction_message reaction) <> message_id message ->
  BotPlus.check_reaction message target emotes (reaction, reactor) b = (Val false, b).
Proof.
  intros Hm. rewrite check_reaction_run. unfold accepts, removes.
  apply Z.eqb_neq in Hm. rewrite Hm. simpl. now rewrite orb_true_r.
Qed.

Lemma check_reaction_ignores_other_messages_witness :
  BotPlus.check_reaction prompt alice None
    (mkReaction (say 501 bob "hi") (Unicode BotPlus.affirm), alice) bot0
  = (Val false, bot0).
Proof.
  apply (check_reaction_ignores_other_messages prompt alice None
           (mkReaction (say 501 bob "hi") (Unicode BotPlus.affirm)) alice bot0).
  simpl; lia.
Defined.

(** X9: the forbidding predicate leaves alone what is not foreign: a
    message in another channel (even by the target) and a message by the
    bot itself (such as the notice it has just posted) are rejected with
    nothing scheduled, and the target's message in the channel is accepted
    with nothing scheduled. *)
Theorem check_forbidding_spares
    (channel : Channel) (target : User) (notice : PreMessage)
    (message : Message) (b : Bot) :
  (channel_id (message_channel message) <> channel_id channel ->
   BotPlus.check_forbidding channel target notice message b = (Val false, b))
  /\ (user_id (message_author message) = user_id (user b) ->
      user_id (message_author message) <> user_id target ->
      BotPlus.check_forbidding channel target notice message b = (Val false, b))
  /\ (channel_id (message_channel message) = channel_id channel ->
      user_id (message_author message) = user_id target ->
      BotPlus.check_forbidding channel target notice message b = (Val true, b)).
Proof.
  rewrite check_forbidding_run. unfold is_reply, forbid_entries, foreign.
  split; [|split].
  - intros Hc. apply Z.eqb_neq in Hc. rewrite Hc. simpl. now rewrite logged_nil.
  - intros Hs Ht. apply Z.eqb_eq in Hs. apply Z.eqb_neq in Ht. rewrite Hs, Ht.
    rewrite orb_true_r. simpl. rewrite andb_false_r. now rewrite logged_nil.
  - intros Hc Ht. apply Z.eqb_eq in Hc. apply Z.eqb_eq in Ht. rewrite Hc, Ht.
    simpl. now rewrite logged_nil.
Qed.

Lemma check_forbidding_spares_witness :
  BotPlus.check_forbidding lobby alice wait_your_turn
    (mkMessage 601 elsewhere alice "hello") bot0 = (Val false, bot0)
  /\ BotPlus.check_forbidding lobby alice wait_your_turn
       (say 602 (user bot0) "Wait your turn") bot0 = (Val false, bot0)
  /\ BotPlus.check_forbidding lobby alice wait_your_turn
       (say 603 alice "hello") bot0 = (Val true, bot0).
Proof.
  split; [|split].
  - apply (proj1 (check_forbidding_spares lobby alice wait_your_turn
                    (mkMessage 601 elsewhere alice "hello") bot0)).
    simpl; lia.
  - apply (proj1 (proj2 (check_forbidding_spares lobby alice wait_your_turn
                           (say 602 (user bot0) "Wait your turn") bot0))).
    + reflexivity.
    + simpl; lia.
  - apply (proj2 (proj2 (check_forbidding_spares lobby alice wait_your_turn
                           (say 603 alice "hello") bot0))); reflexivity.
Defined.

(** X10: [check_message] raises the notice's [delete_after] to 20 when it
    is below and keeps it otherwise, and doing so is stable: a notice that
    went through one wait builds the same predicate in the next one. *)
Theorem check_message_delay_is_stable
    (channel : Channel) (target : User) (notice : PreMessage) (d : Z) (b : Bot) :
  delete_after notice = Some d ->
  BotPlus.check_message channel target true (Some notice) b
  = (Val (BotPlus.check_forbidding channel target
            (set_delete_after notice (Some (if d <? 20 then 20 else d)))), b)
  /\ BotPlus.check_message channel target true
       (Some (set_delete_after notice (Some (if d <? 20 then 20 else d)))) b
     = BotPlus.check_message channel target true (Some notice) b.
Proof.
  intros Hd.
  assert (Hmax : (if d <? 20 then 20 else d) = Z.max d 20).
  { destruct (Z.ltb_spec d 20); lia. }
  rewrite Hmax.
  rewrite (check_message_forbid channel target (Some notice) d b Hd).
  split; [reflexivity|].
  rewrite (check_message_forbid channel target
             (Some (set_delete_after notice (Some (Z.max d 20)))) (Z.max d 20) b eq_refl).
  unfold set_delete_after. simpl.
  replace (Z.max (Z.max d 20) 20) with (Z.max d 20) by lia. reflexivity.
Qed.

Lemma check_message_delay_is_stable_witness :
  BotPlus.check_message lobby alice true (Some patient) bot0
  = (Val (BotPlus.check_forbidding lobby alice (set_delete_after patient (Some 60))), bot0)
  /\ BotPlus.check_message lobby alice true (Some (set_delete_after patient (Some 60))) bot0
     = BotPlus.check_message lobby alice true (Some patient) bot0.
Proof.
  apply (check_message_delay_is_stable lobby alice patient 60 bot0). reflexivity.
Defined.

(* ===================================================================== *)
(** ** Further properties of the vote webhook                             *)
(* ===================================================================== *)

(** [vote_http] is [vote] on what reading the body gave, once the
    credential is accepted and the reading did not raise. *)
Lemma vote_http_read (self : API.t) (request : API.HttpRequest) (b : Bot) :
  API.vote_http self request b
  = if API.option_string_eqb (API._auth self) (API.http_authorization request)
       && API.is_not_None (API._auth self)
    then match API.read_json request with
         | Val json =>
             API.vote self
               (API.mkRequest (API.http_authorization request) json
                  (API.http_form request) (API.http_args request)) b
         | Exc e => (Exc e, b)
         end
    else (Val (API.mkResponse 401), b).
Proof.
  unfold API.vote_http, API.vote. simpl.
  destruct (API.option_string_eqb (API._auth self) (API.http_authorization request)
            && API.is_not_None (API._auth self)); [|reflexivity].
  unfold bind at 1. unfold lift.
  destruct (API.read_json request) as [json | e]; reflexivity.
Qed.

(** X11: whatever the request, [vote] either answers 401, or raises
    ([AttributeError], or what reading the JSON body raised), in both cases
    leaving the bot as it is, or answers 200 after exactly one dispatch, of
    [vote] or [test_vote], carrying the whole payload mapping. *)
Theorem vote_dispatches_iff_200 (self : API.t) (request : API.HttpRequest) (b : Bot) :
  API.vote_http self request b = (Val (API.mkResponse 401), b)
  \/ (exists e : Exn,
        API.vote_http self request b = (Exc e, b)
        /\ (e = AttributeError \/ API.read_json request = Exc e))
  \/ exists (event_name : string) (json : option API.Json) (data : Dict),
       API.read_json request = Val json
       /\ API.request_data
            (API.mkRequest (API.http_authorization request) json
               (API.http_form request) (API.http_args request)) = Some data
       /\ (event_name = "vote" \/ event_name = "test_vote")
       /\ API.vote_http self request b
          = (Val (API.mkResponse 200), logged b [Done (Dispatch event_name data)]).
Proof.
  rewrite vote_http_read.
  destruct (API.option_string_eqb (API._auth self) (API.http_authorization request)
            && API.is_not_None (API._auth self)) eqn:Hauth; [|now left].
  destruct (API.read_json request) as [json | e] eqn:Hread.
  - unfold API.vote. cbn [API.authorization]. rewrite Hauth.
    destruct (API.request_data _) as [data|] eqn:Hdata.
    + destruct (pyval_eq_str (dict_get data "type") "upvote").
      * right. right. exists "vote", json, data.
        split; [reflexivity|]. split; [exact Hdata|]. split; [now left | reflexivity].
      * destruct (pyval_eq_str (dict_get data "type") "test").
        -- right. right. exists "test_vote", json, data.
           split; [reflexivity|]. split; [exact Hdata|]. split; [now right | reflexivity].
        -- now left.
    + right. left. exists AttributeError. split; [reflexivity | now left].
  - right. left. exists e. split; [reflexivity | now right].
Qed.

(** X12: the payload is taken from the first non-empty source: a JSON
    body that is a non-empty object makes [vote] ignore the form and the
    query string, and with no usable JSON body a non-empty form makes it
    ignore the query string. *)
Theorem vote_payload_precedence
    (self : API.t) (auth : option string) (d form args : Dict) (j : option API.Json)
    (b : Bot) :
  (d <> [] ->
   API.vote self (API.mkRequest auth (Some (API.JObject d)) form args) b
   = API.vote self (API.mkRequest auth (Some (API.JObject d)) [] []) b)
  /\ (API.json_truthy j = false ->
      form <> [] ->
      API.vote self (API.mkRequest auth j form args) b
      = API.vote self (API.mkRequest auth None form []) b).
Proof.
  split.
  - intros Hd. unfold API.vote, API.request_data. simpl.
    destruct d; [contradiction | reflexivity].
  - intros Hj Hform. unfold API.vote, API.request_data. simpl. rewrite Hj.
    destruct form; [contradiction | reflexivity].
Qed.

Lemma vote_payload_precedence_witness :
  API.vote webhook teapot bot0 = (Val (API.mkResponse 401), bot0).
Proof.
  unfold teapot.
  rewrite (proj1 (vote_payload_precedence webhook (Some "s3cret")
                    [("type", PyStr "teapot")] [("type", PyStr "upvote")]
                    [("type", PyStr "test")] None bot0)).
  - reflexivity.
  - discriminate.
Defined.

(** X13: with the right credential, a JSON body that is truthy but not an
    object makes [vote] raise [AttributeError] without dispatching,
    whatever the form and the query string hold. *)
Theorem vote_non_object_body_raises
    (self : API.t) (secret : string) (form args : Dict) (b : Bot) :
  API._auth self = Some secret ->
  API.vote self (API.mkRequest (Some secret) (Some (API.JOther true)) form args) b
  = (Exc AttributeError, b).
Proof.
  intros Ha. unfold API.vote. simpl. rewrite Ha. simpl. now rewrite String.eqb_refl.
Qed.

Lemma vote_non_object_body_raises_witness :
  API.vote webhook listing bot0 = (Exc AttributeError, bot0).
Proof.
  apply (vote_non_object_body_raises webhook "s3cret" [("type", PyStr "upvote")] [] bot0).
  reflexivity.
Defined.

(* ===================================================================== *)
(** ** More on dicts                                                      *)
(* ===================================================================== *)

Section DictFacts.

Context {V : Type}.
Implicit Types (d : list (string * V)) (k : string) (v : V).

Lemma dict_get_set d k v k' :
  dict_get (dict_set d k v) k' = if String.eqb k k' then Some v else dict_get d k'.
Proof.
  induction d as [|[k0 v0] rest IH]; simpl.
  - reflexivity.
  - destruct (String.eqb_spec k0 k) as [->|Hne]; simpl.
    + destruct (String.eqb_spec k k'); reflexivity.
    + rewrite IH. destruct (String.eqb_spec k0 k') as [->|Hne'].
      * destruct (String.eqb_spec k k') as [->|_]; [contradiction | reflexivity].
      * reflexivity.
Qed.

Lemma keys_dict_set d k v k' :
  In k' (map fst (dict_set d k v)) <-> k' = k \/ In k' (map fst d).
Proof.
  induction d as [|[k0 v0] rest IH]; simpl.
  - split; [intros [H | []]; now left | intros [H | []]; now left].
  - destruct (String.eqb_spec k0 k) as [->|Hne]; simpl.
    + intuition congruence.
    + rewrite IH. tauto.
Qed.

Lemma NoDup_dict_set d k v :
  NoDup (map fst d) -> NoDup (map fst (dict_set d k v)).
Proof.
  induction d as [|[k0 v0] rest IH]; simpl; intros Hnd.
  - constructor; [intros [] | constructor].
  - inversion Hnd as [|? ? Hfresh Hrest]; subst.
    destruct (String.eqb_spec k0 k) as [->|Hne]; simpl.
    + now constructor.
    + constructor; [|now apply IH].
      rewrite keys_dict_set. intros [Heq | Hin]; [now subst | contradiction].
Qed.

Lemma In_dict_set d k v k' v' :
  In (k', v') (dict_set d k v) -> (k' = k /\ v' = v) \/ In (k', v') d.
Proof.
  induction d as [|[k0 v0] rest IH]; simpl.
  - intros [H | []]. injection H as <- <-. now left.
  - destruct (String.eqb_spec k0 k) as [->|Hne]; simpl.
    + intros [H | H]; [injection H as <- <-; now left | right; now right].
    + intros [H | H]; [right; now left|]. destruct (IH H); [now left | right; now right].
Qed.

Lemma length_dict_set d k v :
  List.length (dict_set d k v)
  = if existsb (String.eqb k) (map fst d) then List.length d else S (List.length d).
Proof.
  induction d as [|[k0 v0] rest IH]; simpl; [reflexivity|].
  destruct (String.eqb_spec k0 k) as [->|Hne]; simpl.
  - now rewrite String.eqb_refl.
  - rewrite IH. destruct (String.eqb_spec k k0) as [->|_]; [contradiction|].
    simpl. now destruct (existsb (String.eqb k) (map fst rest)).
Qed.

Lemma dict_get_app d1 d2 k :
  dict_get (d1 ++ d2) k
  = match dict_get d1 k with
    | Some v => Some v
    | None => dict_get d2 k
    end.
Proof.
  induction d1 as [|[k0 v0] rest IH]; simpl; [reflexivity|].
  now destruct (String.eqb k0 k).
Qed.

Lemma dict_get_Some_In d k v : dict_get d k = Some v -> In (k, v) d.
Proof.
  induction d as [|[k0 v0] rest IH]; simpl; [discriminate|].
  destruct (String.eqb_spec k0 k) as [->|Hne].
  - intros H. injection H as ->. now left.
  - intros H. right. now apply IH.
Qed.

Lemma dict_get_None_fresh d k : dict_get d k = None -> ~ In k (map fst d).
Proof.
  induction d as [|[k0 v0] rest IH]; simpl; [tauto|].
  destruct (String.eqb_spec k0 k) as [->|Hne]; [discriminate|].
  intros H [Heq | Hin]; [contradiction | now apply IH].
Qed.

Lemma dict_get_rev d k :
  NoDup (map fst d) -> dict_get (rev d) k = dict_get d k.
Proof.
  intros Hnd. destruct (dict_get d k) as [v|] eqn:Hget.
  - apply dict_get_In.
    + rewrite map_rev. now apply NoDup_rev.
    + rewrite <- in_rev. now apply dict_get_Some_In.
  - apply dict_get_fresh. rewrite map_rev, <- in_rev. now apply dict_get_None_fresh.
Qed.

Lemma dict_get_fold (pairs : list (string * V)) d k :
  dict_get (fold_left (fun d kv => dict_set d (fst kv) (snd kv)) pairs d) k
  = match dict_get (rev pairs) k with
    | Some v => Some v
    | None => dict_get d k
    end.
Proof.
  revert d. induction pairs as [|[k0 v0] rest IH]; intros d; simpl; [reflexivity|].
  rewrite IH, dict_get_app, dict_get_set. simpl.
  destruct (dict_get (rev rest) k); [reflexivity|].
  rewrite (String.eqb_sym k0 k). now destruct (String.eqb k k0).
Qed.

(** [dict(pairs)[k]] is the value of the last pair with key [k]. *)
Lemma dict_get_dict_of (pairs : list (string * V)) k :
  dict_get (dict_of pairs) k = dict_get (rev pairs) k.
Proof.
  unfold dict_of. rewrite dict_get_fold. simpl. now destruct (dict_get (rev pairs) k).
Qed.

Lemma NoDup_fold (pairs : list (string * V)) d :
  NoDup (map fst d) ->
  NoDup (map fst (fold_left (fun d kv => dict_set d (fst kv) (snd kv)) pairs d)).
Proof.
  revert d. induction pairs as [|[k0 v0] rest IH]; intros d Hnd; simpl; [assumption|].
  apply IH. now apply NoDup_dict_set.
Qed.

Lemma NoDup_dict_of (pairs : list (string * V)) : NoDup (map fst (dict_of pairs)).
Proof. unfold dict_of. apply NoDup_fold. constructor. Qed.

Lemma In_fold (pairs : list (string * V)) d k v :
  In (k, v) (fold_left (fun d kv => dict_set d (fst kv) (snd kv)) pairs d) ->
  In (k, v) d \/ In (k, v) pairs.
Proof.
  revert d. induction pairs as [|[k0 v0] rest IH]; intros d; simpl; [now left|].
  intros H. destruct (IH _ H) as [Hd | Hrest]; [|right; now right].
  destruct (In_dict_set _ _ _ _ _ Hd) as [[-> ->] | Hin]; [right; now left | now left].
Qed.

Lemma In_dict_of (pairs : list (string * V)) k v :
  In (k, v) (dict_of pairs) -> In (k, v) pairs.
Proof. unfold dict_of. intros H. destruct (In_fold _ _ _ _ H) as [[] | Hin]. exact Hin. Qed.

End DictFacts.

Lemma dict_get_map_label {A B} (f : A -> B) (d : list (string * A)) (k : string) :
  dict_get (map (fun entry => (fst entry, f (snd entry))) d) k = option_map f (dict_get d k).
Proof.
  induction d as [|[k0 v0] rest IH]; simpl; [reflexivity|].
  now destruct (String.eqb k0 k).
Qed.

(* ===================================================================== *)
(** ** Further properties of the cog registry                             *)
(* ===================================================================== *)

Lemma cogs_status_pairs (b : Bot) :
  BotPlus.cogs_status b
  = dict_of (map (fun entry => (fst entry, attached_label (snd entry))) (cogs b)
             ++ map (fun cog => (CogPlus.qualified_name cog, side_label cog))
                  (disabled_cogs b)).
Proof.
  unfold BotPlus.cogs_status. f_equal. f_equal.
  apply map_ext. intros [name cog]. reflexivity.
Qed.

(** X14: whatever the registry holds, the status query has at most one
    entry per name and every label is one of Enabled, BetaEnabled, Disabled
    and BetaDisabled. *)
Theorem cogs_status_well_formed (b : Bot) :
  NoDup (map fst (BotPlus.cogs_status b))
  /\ Forall (fun entry => In (snd entry) four_labels) (BotPlus.cogs_status b).
Proof.
  rewrite cogs_status_pairs. split; [apply NoDup_dict_of|].
  apply Forall_forall. intros [name label] Hin. apply In_dict_of in Hin.
  apply in_app_or in Hin. simpl.
  destruct Hin as [Hin | Hin]; apply in_map_iff in Hin;
    destruct Hin as [x [Heq _]]; injection Heq as _ <-.
  - unfold attached_label, four_labels. destruct (CogPlus.__beta__ (snd x)); simpl; tauto.
  - unfold side_label, four_labels. destruct (CogPlus.__beta__ x); simpl; tauto.
Qed.

(** X15: the side list wins: a name carried by a cog of the side list is
    reported with the label (Disabled or BetaDisabled) of the last such
    cog, also when a cog of that name is attached. *)
Theorem cogs_status_side_list_wins (b : Bot) (earlier later : list Cog) (cog : Cog) :
  disabled_cogs b = earlier ++ cog :: later ->
  (forall other, In other later ->
     CogPlus.qualified_name other <> CogPlus.qualified_name cog) ->
  dict_get (BotPlus.cogs_status b) (CogPlus.qualified_name cog) = Some (side_label cog).
Proof.
  intros Hside Hlater.
  rewrite cogs_status_pairs, dict_get_dict_of, rev_app_distr, dict_get_app, Hside.
  rewrite map_app. simpl map. rewrite rev_app_distr. simpl rev.
  rewrite <- app_assoc, dict_get_app.
  rewrite dict_get_fresh.
  - simpl. now rewrite String.eqb_refl.
  - rewrite map_rev, <- in_rev, map_map. simpl. intros Hin.
    apply in_map_iff in Hin. destruct Hin as [other [Hname Hother]].
    exact (Hlater other Hother Hname).
Qed.

Lemma cogs_status_side_list_wins_witness :
  dict_get (BotPlus.cogs_status (mkBot (user bot0) [("Admin", admin)] [admin_off] []))
    "Admin" = Some "Disabled".
Proof.
  apply (cogs_status_side_list_wins (mkBot (user bot0) [("Admin", admin)] [admin_off] [])
           [] [] admin_off).
  - reflexivity.
  - intros other [].
Defined.

(** X16: a name that no cog of the side list carries is reported from the
    attached cogs (whose names are distinct): Enabled or BetaEnabled by the
    beta flag of the cog attached under it, and no entry at all when none
    is. *)
Theorem cogs_status_of_attached (b : Bot) (name : string) :
  NoDup (map fst (cogs b)) ->
  (forall cog, In cog (disabled_cogs b) -> CogPlus.qualified_name cog <> name) ->
  dict_get (BotPlus.cogs_status b) name = option_map attached_label (dict_get (cogs b) name).
Proof.
  intros Hnd Hside.
  rewrite cogs_status_pairs, dict_get_dict_of, rev_app_distr, dict_get_app.
  rewrite dict_get_fresh.
  - rewrite dict_get_rev.
    + apply dict_get_map_label.
    + rewrite map_map. simpl. exact Hnd.
  - rewrite map_rev, <- in_rev, map_map. simpl. intros Hin.
    apply in_map_iff in Hin. destruct Hin as [cog [Hname Hcog]].
    exact (Hside cog Hcog Hname).
Qed.

Lemma cogs_status_of_attached_witness :
  dict_get (BotPlus.cogs_status (mkBot (user bot0) [("Games", games)] [polls] [])) "Games"
  = Some "BetaEnabled"
  /\ dict_get (BotPlus.cogs_status (mkBot (user bot0) [("Games", games)] [polls] [])) "Music"
     = None.
Proof.
  split.
  - apply (cogs_status_of_attached (mkBot (user bot0) [("Games", games)] [polls] []) "Games").
    + repeat constructor; simpl; tauto.
    + intros cog [<- | []]. discriminate.
  - apply (cogs_status_of_attached (mkBot (user bot0) [("Games", games)] [polls] []) "Music").
    + repeat constructor; simpl; tauto.
    + intros cog [<- | []]. discriminate.
Defined.

Lemma load_cog_subclass_returns (c : CogPlus.cls) (b : Bot) :
  fst (BotPlus.load_cog (CogSubclass c) b) = Val tt.
Proof.
  destruct (CogPlus.__disabled__ c) eqn:Hd.
  - now rewrite (load_cog_disabled c b Hd).
  - now rewrite (load_cog_enabled c b Hd).
Qed.

Lemma load_cogs_cons (cls : PyClass) (rest : list PyClass) (b : Bot) :
  BotPlus.load_cogs (cls :: rest) b
  = match BotPlus.load_cog cls b with
    | (Val _, b') => BotPlus.load_cogs rest b'
    | (Exc e, b') => (Exc e, b')
    end.
Proof. reflexivity. Qed.

Lemma load_cogs_app (before after : list PyClass) (b : Bot) :
  fst (BotPlus.load_cogs before b) = Val tt ->
  BotPlus.load_cogs (before ++ after) b
  = BotPlus.load_cogs after (snd (BotPlus.load_cogs before b)).
Proof.
  revert b. induction before as [|cls rest IH]; intros b.
  - reflexivity.
  - rewrite <- app_comm_cons, !load_cogs_cons.
    destruct (BotPlus.load_cog cls b) as [[[]|e] b1]; simpl.
    + apply IH.
    + discriminate.
Qed.

Lemma load_cogs_subclasses_return (classes : list CogPlus.cls) (b : Bot) :
  fst (BotPlus.load_cogs (map CogSubclass classes) b) = Val tt.
Proof.
  revert b. induction classes as [|c rest IH]; intros b; [reflexivity|].
  simpl map. rewrite load_cogs_cons. pose proof (load_cog_subclass_returns c b) as Hc.
  destruct (BotPlus.load_cog (CogSubclass c) b) as [[[]|e] b1]; simpl in Hc.
  - apply IH.
  - discriminate.
Qed.

(** X17: [load_cog] on a class that is not a [CogPlus] subclass raises
    [TypeError] and leaves the bot as it is; in a setup script the classes
    before it stay registered and those after it are never looked at. *)
Theorem load_cog_rejects_other_classes
    (before : list CogPlus.cls) (after : list PyClass) (b : Bot) :
  BotPlus.load_cog OtherClass b = (Exc TypeError, b)
  /\ BotPlus.load_cogs (map CogSubclass before ++ OtherClass :: after) b
     = (Exc TypeError, snd (BotPlus.load_cogs (map CogSubclass before) b)).
Proof.
  split; [reflexivity|].
  rewrite load_cogs_app; [|apply load_cogs_subclasses_return].
  now rewrite load_cogs_cons.
Qed.

Lemma registry_ok_load_cog (cls : PyClass) (b : Bot) :
  registry_ok b -> registry_ok (snd (BotPlus.load_cog cls b)).
Proof.
  intros [Hnd [Hatt Hside]]. destruct cls as [c|]; [|now repeat split].
  destruct (CogPlus.__disabled__ c) eqn:Hd.
  - rewrite (load_cog_disabled c b Hd). simpl. repeat split; simpl; try assumption.
    apply Forall_app. split; [assumption | now constructor].
  - rewrite (load_cog_enabled c b Hd). simpl. repeat split; simpl; try assumption.
    + now apply NoDup_dict_set.
    + apply Forall_forall. intros [name cog] Hin.
      destruct (In_dict_set _ _ _ _ _ Hin) as [[_ ->] | Hold]; [exact Hd|].
      rewrite Forall_forall in Hatt. exact (Hatt _ Hold).
Qed.

(** X18: whatever classes a setup script hands to [load_cog], with
    repeated names or not and also when it is cut short by a [TypeError],
    the registry keeps its shape: attached names are distinct, no attached
    cog has the disabled flag, and every cog of the side list has it. *)
Theorem load_cogs_keeps_registry (classes : list PyClass) (b : Bot) :
  registry_ok b -> registry_ok (snd (BotPlus.load_cogs classes b)).
Proof.
  revert b. induction classes as [|cls rest IH]; intros b Hok; [assumption|].
  rewrite load_cogs_cons. pose proof (registry_ok_load_cog cls b Hok) as Hstep.
  destruct (BotPlus.load_cog cls b) as [[[]|e] b1]; simpl in Hstep.
  - now apply IH.
  - assumption.
Qed.

Lemma load_cogs_keeps_registry_witness :
  registry_ok (snd (BotPlus.load_cogs
                      [CogSubclass admin; CogSubclass admin_off; CogSubclass admin_beta;
                       OtherClass; CogSubclass music] bot0)).
Proof.
  apply (load_cogs_keeps_registry
           [CogSubclass admin; CogSubclass admin_off; CogSubclass admin_beta;
            OtherClass; CogSubclass music] bot0).
  repeat split; simpl; constructor.
Defined.

Lemma add_cog_replaces_aux (cog : Cog) (b : Bot) :
  fst (BotPlus.add_cog cog b) = Val tt
  /\ (forall name,
        dict_get (cogs (snd (BotPlus.add_cog cog b))) name
        = if String.eqb (CogPlus.qualified_name cog) name
          then Some cog else dict_get (cogs b) name)
  /\ List.length (cogs (snd (BotPlus.add_cog cog b)))
     = (if existsb (String.eqb (CogPlus.qualified_name cog)) (map fst (cogs b))
        then List.length (cogs b) else S (List.length (cogs b)))
  /\ disabled_cogs (snd (BotPlus.add_cog cog b)) = disabled_cogs b
  /\ log (snd (BotPlus.add_cog cog b))
     = log b ++ (if CogPlus.__beta__ cog then [beta_line cog] else []).
Proof.
  unfold BotPlus.add_cog, bind, emit, logged, ret, beta_line.
  destruct (CogPlus.__beta__ cog); simpl; rewrite ?app_nil_r;
    (split; [reflexivity|]); (split; [intros name; apply dict_get_set|]);
    (split; [apply length_dict_set|]); split; reflexivity.
Qed.

(* ===================================================================== *)
(** ** [load_extensions]                                                  *)
(* ===================================================================== *)

Lemma replace_char_app (old new : ascii) (s1 s2 : string) :
  replace_char old new (s1 ++ s2)%string
  = (replace_char old new s1 ++ replace_char old new s2)%string.
Proof. induction s1 as [|c rest IH]; simpl; [reflexivity | now rewrite IH]. Qed.

Lemma replace_char_length (old new : ascii) (s : string) :
  String.length (replace_char old new s) = String.length s.
Proof. induction s as [|c rest IH]; simpl; [reflexivity | now rewrite IH]. Qed.

Lemma replace_char_gone (old new : ascii) (s : string) :
  new <> old -> ~ In old (list_ascii_of_string (replace_char old new s)).
Proof.
  intros Hne. induction s as [|c rest IH]; simpl; [tauto|].
  intros [Heq | Hin]; [|contradiction].
  destruct (Ascii.eqb_spec c old) as [->|Hc]; [now apply Hne | now apply Hc].
Qed.

Lemma replace_char_keeps_out (old new other : ascii) (s : string) :
  new <> other ->
  ~ In other (list_ascii_of_string s) ->
  ~ In other (list_ascii_of_string (replace_char old new s)).
Proof.
  intros Hne. induction s as [|c rest IH]; simpl; [tauto|].
  intros Hs [Heq | Hin].
  - destruct (Ascii.eqb_spec c old) as [->|Hc]; [now apply Hne|]. apply Hs. now left.
  - apply IH; [|assumption]. intros H. apply Hs. now right.
Qed.

Lemma module_name_app (s1 s2 : string) :
  module_name (s1 ++ s2)%string = (module_name s1 ++ module_name s2)%string.
Proof. unfold module_name. now rewrite !replace_char_app. Qed.

(** X20: the module name of a path has the length of the path and holds
    neither a slash nor a backslash; it is computed piece by piece, so the
    entry [within] of the directory [file] is imported as the module name
    of [file], a dot, and the module name of [within], whose extension is
    kept. *)
Theorem module_name_dots (file within : string) :
  String.length (module_name file) = String.length file
  /\ ~ In "/"%char (list_ascii_of_string (module_name file))
  /\ ~ In "\"%char (list_ascii_of_string (module_name file))
  /\ module_name (file ++ "/" ++ within)%string
     = (module_name file ++ "." ++ module_name within)%string
  /\ module_name (within ++ ".py")%string = (module_name within ++ ".py")%string.
Proof.
  split; [unfold module_name; now rewrite !replace_char_length|].
  split.
  { unfold module_name. apply replace_char_keeps_out; [discriminate|].
    apply replace_char_gone. discriminate. }
  split; [unfold module_name; apply replace_char_gone; discriminate|].
  split; now rewrite !module_name_app.
Qed.

Lemma load_extensions_plain (depth : nat) (fs : FileSystem)
    (import_module : string -> Res unit) (files : list string) :
  Forall (fun file => isdir fs file = false) files ->
  Forall (fun file => import_module (module_name file) = Val tt) files ->
  load_extensions (S depth) fs import_module files = (map module_name files, Val tt).
Proof.
  induction files as [|file rest IH]; intros Hplain Hok; [reflexivity|].
  inversion Hplain as [|? ? Hfile Hrest]; subst.
  inversion Hok as [|? ? Himp Hoks]; subst.
  specialize (IH Hrest Hoks). simpl in IH |- *.
  now rewrite Hfile, Himp, IH.
Qed.

(** X21: handed paths none of which is a directory, [load_extensions]
    imports the module name of each, in order, as long as the imports
    succeed. *)
Theorem load_extensions_imports_files (depth : nat) (fs : FileSystem)
    (import_module : string -> Res unit) (files : list string) :
  Forall (fun file => isdir fs file = false) files ->
  Forall (fun file => import_module (module_name file) = Val tt) files ->
  load_extensions (S depth) fs import_module files = (map module_name files, Val tt).
Proof. apply load_extensions_plain. Qed.

Lemma load_extensions_imports_files_witness :
  load_extensions 1 no_dirs imports_fine ["cogs/admin"; "cogs\music"]
  = (["cogs.admin"; "cogs.music"], Val tt).
Proof.
  apply (load_extensions_imports_files 0 no_dirs imports_fine ["cogs/admin"; "cogs\music"]).
  - repeat constructor.
  - repeat constructor.
Defined.

(** X22: the first import that raises ends [load_extensions] with that
    exception: the paths before it were imported, those after it are not. *)
Theorem load_extensions_stops_at_failed_import (depth : nat) (fs : FileSystem)
    (import_module : string -> Res unit) (before after : list string) (bad : string)
    (e : Exn) :
  Forall (fun file => isdir fs file = false) before ->
  Forall (fun file => import_module (module_name file) = Val tt) before ->
  isdir fs bad = false ->
  import_module (module_name bad) = Exc e ->
  load_extensions (S depth) fs import_module (before ++ bad :: after)
  = (map module_name before ++ [module_name bad], Exc e).
Proof.
  intros Hplain Hok Hbad He.
  induction before as [|file rest IH].
  - simpl. now rewrite Hbad, He.
  - inversion Hplain as [|? ? Hfile Hrest]; subst.
    inversion Hok as [|? ? Himp Hoks]; subst.
    specialize (IH Hrest Hoks). simpl in IH |- *.
    now rewrite Hfile, Himp, IH.
Qed.

Lemma load_extensions_stops_at_failed_import_witness :
  load_extensions 1 no_dirs (imports_but "cogs.music")
    ["cogs/admin"; "cogs/music"; "cogs/polls"]
  = (["cogs.admin"; "cogs.music"], Exc (OtherError "ModuleNotFoundError")).
Proof.
  apply (load_extensions_stops_at_failed_import 0 no_dirs (imports_but "cogs.music")
           ["cogs/admin"] ["cogs/polls"] "cogs/music" (OtherError "ModuleNotFoundError")).
  - repeat constructor.
  - repeat constructor.
  - reflexivity.
  - reflexivity.
Defined.

(** X23: handed a directory whose entries are not directories,
    [load_extensions] imports every entry, in listing order, under the
    module name of the directory, a dot, and the module name of the entry
    as listed (extension included). *)
Theorem load_extensions_imports_directory (depth : nat) (fs : FileSystem)
    (import_module : string -> Res unit) (dir : string) :
  isdir fs dir = true ->
  Forall (fun within => isdir fs (dir ++ "/" ++ within)%string = false) (listdir fs dir) ->
  Forall (fun within =>
            import_module (module_name dir ++ "." ++ module_name within)%string = Val tt)
    (listdir fs dir) ->
  load_extensions (S (S depth)) fs import_module [dir]
  = (map (fun within => (module_name dir ++ "." ++ module_name within)%string)
       (listdir fs dir),
     Val tt).
Proof.
  intros Hdir Hplain Hok.
  assert (Hinner :
            load_extensions (S depth) fs import_module
              (map (fun within => (dir ++ "/" ++ within)%string) (listdir fs dir))
            = (map module_name
                 (map (fun within => (dir ++ "/" ++ within)%string) (listdir fs dir)),
               Val tt)).
  { apply load_extensions_plain.
    - apply Forall_map. exact Hplain.
    - apply Forall_map. revert Hok. apply Forall_impl. intros within Himp.
      now rewrite !module_name_app. }
  change (load_extensions (S (S depth)) fs import_module [dir])
    with (let '(imported, r) :=
            if isdir fs dir
            then load_extensions (S depth) fs import_module
                   (map (fun within => (dir ++ "/" ++ within)%string) (listdir fs dir))
            else ([module_name dir], import_module (module_name dir)) in
          match r with
          | Val _ => (imported ++ [], Val tt)
          | Exc e => (imported, Exc e)
          end).
  rewrite Hdir, Hinner, app_nil_r, map_map. f_equal.
  apply map_ext. intros within. now rewrite !module_name_app.
Qed.

Lemma load_extensions_imports_directory_witness :
  load_extensions 2 cogs_dir imports_fine ["cogs"]
  = (["cogs.admin.py"; "cogs.music.py"], Val tt).
Proof.
  apply (load_extensions_imports_directory 0 cogs_dir imports_fine "cogs").
  - reflexivity.
  - repeat constructor.
  - repeat constructor.
Defined.

(* ===================================================================== *)
(** ** The decorators and [activate_api]                                  *)
(* ===================================================================== *)

(** X24: the order of the decorators decides.  With [@CogPlus.disabled]
    inner and [@bot.load_cog] outer, the cog goes to the side list,
    nothing is attached or printed, and the decorated name is bound to
    [None].  The other way round, [load_cog] runs first on the class as
    written: a class that is not flagged is attached as an enabled cog, and
    [CogPlus.disabled] then raises [TypeError] on the [None] it is handed. *)
Theorem decorator_order_decides (c : CogPlus.cls) (b : Bot) :
  decorate [at_disabled; load_cog_decorator] (PyCls (CogSubclass c)) b
  = (Val PyNone,
     mkBot (user b) (cogs b) (disabled_cogs b ++ [CogPlus.disabled c]) (log b))
  /\ (CogPlus.__disabled__ c = false ->
      decorate [load_cog_decorator; at_disabled] (PyCls (CogSubclass c)) b
      = (Exc TypeError, snd (BotPlus.add_cog c b))
      /\ dict_get (cogs (snd (BotPlus.add_cog c b))) (CogPlus.qualified_name c) = Some c
      /\ disabled_cogs (snd (BotPlus.add_cog c b)) = disabled_cogs b).
Proof.
  split; [reflexivity|].
  intros Hd.
  destruct (add_cog_replaces_aux c b) as [Hval [Hget [_ [Hside _]]]].
  split; [|split; [|exact Hside]].
  - unfold decorate, load_cog_decorator, at_disabled, BotPlus.load_cog, bind, ret, lift.
    rewrite Hd. destruct (BotPlus.add_cog c b) as [[[]|e] b1]; simpl in *.
    + reflexivity.
    + discriminate.
  - rewrite Hget. now rewrite String.eqb_refl.
Qed.

Lemma decorator_order_decides_witness :
  decorate [load_cog_decorator; at_disabled] (PyCls (CogSubclass music)) bot0
  = (Exc TypeError, snd (BotPlus.add_cog music bot0))
  /\ dict_get (cogs (snd (BotPlus.add_cog music bot0))) "Music" = Some music
  /\ disabled_cogs (snd (BotPlus.add_cog music bot0)) = [].
Proof.
  apply (proj2 (decorator_order_decides music bot0)). reflexivity.
Defined.

(** X25: [activate_api] attaches the API cog under the name API, starts
    the server thread and returns the API with the given credential; left
    at its default [None], that credential makes [vote] answer 401 to
    every request without dispatching. *)
Theorem activate_api_without_credential
    (import_name : string) (host : option string) (port : option Z) (h : CogLib.Host) :
  exists (api : API.t) (h' : CogLib.Host),
    CogLib.activate_api import_name host port None h = (Val api, h')
    /\ CogLib.api h' = Some api
    /\ CogLib.api_thread_started h' = true
    /\ dict_get (cogs (CogLib.bot h')) "API" = Some CogLib.API_cog
    /\ log (CogLib.bot h') = log (CogLib.bot h)
    /\ forall (request : API.Request) (b : Bot),
         API.vote api request b = (Val (API.mkResponse 401), b).
Proof.
  unfold CogLib.activate_api.
  destruct (add_cog_replaces_aux CogLib.API_cog (CogLib.bot h)) as [Hval [Hget [_ [_ Hlog]]]].
  destruct (BotPlus.add_cog CogLib.API_cog (CogLib.bot h)) as [[[]|e] bot1]; simpl in *;
    [|discriminate].
  eexists. eexists. split; [reflexivity|]. simpl.
  split; [reflexivity|]. split; [reflexivity|].
  split; [now rewrite Hget|]. split; [now rewrite Hlog, app_nil_r|].
  intros request b. unfold API.vote, API.set_auth. simpl.
  now destruct (API.authorization request).
Qed.

(* ===================================================================== *)
(** ** The ping listener                                                  *)
(* ===================================================================== *)

Lemma skip_whitespace_blanks (n : nat) (s : string) :
  skip_whitespace (blanks n ++ s)%string = skip_whitespace s.
Proof. induction n as [|n IH]; simpl; [reflexivity | exact IH]. Qed.

Lemma skip_whitespace_mention (rest : string) :
  skip_whitespace ("<@" ++ rest)%string = ("<@" ++ rest)%string.
Proof. destruct rest as [|c rest]; reflexivity. Qed.

(** X26: the pattern of the ping listener holds the text of the builtin
    [id], not an id: a message that is a mention, that is blanks, then
    [<@], then anything that does not start with [<] (a digit, or [!] and
    digits), never triggers the reply, whoever wrote it; what does trigger
    it, from anyone but the bot, is the literal text
    [<@<built-in function id>>]. *)
Theorem custom_event_ignores_mentions
    (_premessage : Message -> PreMessage) (message : Message) (b : Bot) :
  (forall (n : nat) (c : ascii) (rest : string),
     message_content message = (blanks n ++ "<@" ++ String c rest)%string ->
     c <> "<"%char ->
     custom_event _premessage message b = (Val tt, b))
  /\ (forall rest : string,
        message_content message = (ping_literal ++ rest)%string ->
        user_id (message_author message) <> user_id (user b) ->
        custom_event _premessage message b
        = (Val tt, logged b [Done (Send (_premessage message) (message_channel message))])).
Proof.
  split.
  - intros n c rest Hcontent Hc.
    unfold custom_event, bind, self_user, ret, re_match_ping.
    rewrite Hcontent, skip_whitespace_blanks, skip_whitespace_mention.
    destruct (String.prefix ping_literal ("<@" ++ String c rest)%string) eqn:Hp;
      [|reflexivity].
    apply String.prefix_correct in Hp. simpl in Hp. injection Hp as Heq _.
    now subst c.
  - intros rest Hcontent Hauthor.
    unfold custom_event, bind, self_user, ret, re_match_ping.
    rewrite Hcontent. apply Z.eqb_neq in Hauthor. rewrite Hauthor.
    change (ping_literal ++ rest)%string
      with ("<@" ++ ("<built-in function id>>" ++ rest))%string.
    rewrite skip_whitespace_mention.
    replace (String.prefix ping_literal ("<@" ++ ("<built-in function id>>" ++ rest))%string)
      with true; [reflexivity|].
    symmetry. apply (proj2 (String.prefix_correct _ _)).
    simpl. now destruct rest.
Qed.

Lemma custom_event_ignores_mentions_witness :
  custom_event my_prefix (say 701 alice "  <@1> hello") bot0 = (Val tt, bot0)
  /\ custom_event my_prefix (say 702 alice "<@<built-in function id>>") bot0
     = (Val tt, logged bot0 [Done (Send (my_prefix (say 702 alice "")) lobby)]).
Proof.
  split.
  - apply (proj1 (custom_event_ignores_mentions my_prefix (say 701 alice "  <@1> hello") bot0)
             2%nat "1"%char "> hello").
    + reflexivity.
    + discriminate.
  - apply (proj2 (custom_event_ignores_mentions my_prefix
                    (say 702 alice "<@<built-in function id>>") bot0) "").
    + reflexivity.
    + simpl; lia.
Defined.

(* ===================================================================== *)
(** ** [confirm] when the wait times out                                  *)
(* ===================================================================== *)

Lemma observed_all {E} (accept : E -> bool) (events : list E) :
  find accept events = None -> observed accept events = events.
Proof.
  induction events as [|ev rest IH]; simpl; [reflexivity|].
  destruct (accept ev); [discriminate|]. intros H. now rewrite IH.
Qed.

(** C6, as the code has it: when the prompt is sent, the timeout ends the
    wait and no reaction qualified, [confirm] has attached [✅] and [❌],
    has handed every reaction to the predicate, cleans up and then raises
    [TimeoutError]: it does not return [None]. *)
Theorem confirm_timeout_raises
    (channel : Channel) (premessage : PreMessage) (target : User)
    (timeout : option Z) (del : bool)
    (env : Env (Reaction * User)) (message : Message) (b : Bot) :
  sent env = Val message ->
  ending env = TimeoutError ->
  (forall ev, In ev (incoming env) ->
     ~ qualifies message target (Some [Unicode BotPlus.affirm; Unicode BotPlus.deny])
         (fst ev) (snd ev)) ->
  BotPlus.confirm channel premessage target timeout del env b
  = (Exc TimeoutError,
     logged b ([Done (Send premessage channel);
                Done (AddReactions message (Some [Unicode BotPlus.affirm; Unicode BotPlus.deny]))]
               ++ flat_map (removal_entry message (user b)) (incoming env)
               ++ [cleanup_entry del message])).
Proof.
  intros Hsent Hend Hnone.
  unfold BotPlus.confirm, bind.
  rewrite (get_reaction_run _ _ _ _ _ _ _ message b Hsent).
  destruct (find _ (incoming env)) as [ev|] eqn:Hfind.
  - apply find_some in Hfind. destruct Hfind as [Hin Hacc].
    apply accepts_iff in Hacc. exfalso. exact (Hnone ev Hin Hacc).
  - rewrite (observed_all _ _ Hfind), Hend. reflexivity.
Qed.

Lemma confirm_timeout_raises_witness :
  BotPlus.confirm lobby proceed alice (Some 30) false quiet bot0
  = (Exc TimeoutError,
     logged bot0 [Done (Send proceed lobby);
                  Done (AddReactions prompt (Some [Unicode BotPlus.affirm; Unicode BotPlus.deny]));
                  Scheduled (RemoveReaction (mkReaction prompt (Unicode BotPlus.affirm)) bob);
                  Done (ClearReactions prompt)]).
Proof.
  apply (confirm_timeout_raises lobby proceed alice (Some 30) false quiet prompt bot0).
  - reflexivity.
  - reflexivity.
  - intros ev [Hev | []]. subst ev. unfold qualifies. simpl.
    intros [_ [Hu _]]. discriminate Hu.
Defined.

(* ===================================================================== *)
(** ** [vote] on a body it cannot use                                     *)
(* ===================================================================== *)

(** C4, as the code has it: with the right credential, a JSON body that
    is truthy but not an object makes the handler raise [AttributeError],
    and a body whose reading raises makes it raise that exception; in
    neither case is 401 answered, and nothing is dispatched. *)
Theorem vote_raises_on_unusable_body
    (self : API.t) (secret : string) (request : API.HttpRequest) (b : Bot) :
  API._auth self = Some secret ->
  API.http_authorization request = Some secret ->
  (API.read_json request = Val (Some (API.JOther true)) ->
   API.vote_http self request b = (Exc AttributeError, b))
  /\ (forall e : Exn,
        API.read_json request = Exc e ->
        API.vote_http self request b = (Exc e, b)).
Proof.
  intros Ha Hr. rewrite vote_http_read.
  assert (Hok : API.option_string_eqb (API._auth self) (API.http_authorization request)
                && API.is_not_None (API._auth self) = true).
  { rewrite Ha, Hr. simpl. now rewrite String.eqb_refl. }
  rewrite Hok. split.
  - intros Hread. rewrite Hread. unfold API.vote. cbn [API.authorization].
    now rewrite Hok.
  - intros e Hread. now rewrite Hread.
Qed.

Lemma vote_raises_on_unusable_body_witness :
  API.vote_http webhook array_body bot0 = (Exc AttributeError, bot0)
  /\ API.vote_http webhook broken_body bot0 = (Exc (OtherError "BadRequest"), bot0).
Proof.
  split.
  - apply (proj1 (vote_raises_on_unusable_body webhook "s3cret" array_body bot0
                    eq_refl eq_refl)).
    reflexivity.
  - apply (proj2 (vote_raises_on_unusable_body webhook "s3cret" broken_body bot0
                    eq_refl eq_refl)).
    reflexivity.
Defined.

(* ===================================================================== *)
(** ** The status of a name                                               *)
(* ===================================================================== *)

Lemma side_list_label (b : Bot) (earlier later : list Cog) (cog : Cog) :
  disabled_cogs b = earlier ++ cog :: later ->
  (forall other, In other later ->
     CogPlus.qualified_name other <> CogPlus.qualified_name cog) ->
  dict_get (BotPlus.cogs_status b) (CogPlus.qualified_name cog) = Some (side_label cog).
Proof.
  intros Hside Hlater.
  rewrite cogs_status_pairs, dict_get_dict_of, rev_app_distr, dict_get_app, Hside.
  rewrite map_app. simpl map. rewrite rev_app_distr. simpl rev.
  rewrite <- app_assoc, dict_get_app.
  rewrite dict_get_fresh.
  - simpl. now rewrite String.eqb_refl.
  - rewrite map_rev, <- in_rev, map_map. simpl. intros Hin.
    apply in_map_iff in Hin. destruct Hin as [other [Hname Hother]].
    exact (Hlater other Hother Hname).
Qed.

Lemma attached_cog_label (b : Bot) (name : string) :
  NoDup (map fst (cogs b)) ->
  (forall cog, In cog (disabled_cogs b) -> CogPlus.qualified_name cog <> name) ->
  dict_get (BotPlus.cogs_status b) name = option_map attached_label (dict_get (cogs b) name).
Proof.
  intros Hnd Hside.
  rewrite cogs_status_pairs, dict_get_dict_of, rev_app_distr, dict_get_app.
  rewrite dict_get_fresh.
  - rewrite dict_get_rev.
    + apply dict_get_map_label.
    + rewrite map_map. simpl. exact Hnd.
  - rewrite map_rev, <- in_rev, map_map. simpl. intros Hin.
    apply in_map_iff in Hin. destruct Hin as [cog [Hname Hcog]].
    exact (Hside cog Hcog Hname).
Qed.

(** C5, as stated, fails where two modules share a name: an attached cog
    with both flags off is reported Disabled when a disabled class of the
    same name was registered, and a disabled beta cog is reported Disabled
    when a disabled class of the same name without the beta flag was
    registered after it. *)
Lemma same_name_status_counterexample :
  (dict_get (cogs (snd (BotPlus.load_cogs [CogSubclass admin; CogSubclass admin_off] bot0)))
     "Admin" = Some admin
   /\ CogPlus.__disabled__ admin = false
   /\ CogPlus.__beta__ admin = false
   /\ dict_get (BotPlus.cogs_status
                  (snd (BotPlus.load_cogs [CogSubclass admin; CogSubclass admin_off] bot0)))
        "Admin" = Some "Disabled")
  /\ (In polls (disabled_cogs
                  (snd (BotPlus.load_cogs [CogSubclass polls; CogSubclass polls_plain] bot0)))
      /\ CogPlus.__disabled__ polls = true
      /\ CogPlus.__beta__ polls = true
      /\ dict_get (BotPlus.cogs_status
                     (snd (BotPlus.load_cogs [CogSubclass polls; CogSubclass polls_plain] bot0)))
           "Polls" = Some "Disabled").
Proof.
  split.
  - repeat split.
  - split; [left; reflexivity | repeat split].
Qed.

(** C5, amended.  On any bot: [load_cog] on a class whose disabled flag is
    set appends its cog to the side list and attaches nothing, and the
    status query then reports the class under its name as BetaDisabled
    when its beta flag is set and Disabled otherwise; [load_cog] on a class
    without the disabled flag, under a name not attached yet, attaches its
    cog, and the status query then reports it as Enabled when its beta
    flag is off and BetaEnabled otherwise, provided no cog of the side list
    carries its name; whatever
    is loaded, no attached cog has the disabled flag and every cog of the
    side list has it; the status query has one entry per name and every
    label is one of the four; a cog of the side list keeps its label
    unless a cog put into the side list after it carries the same name,
    and an attached cog keeps its label unless a cog of the side list
    carries its name. *)
Theorem load_cog_status_by_name (b : Bot) :
  (forall c : CogPlus.cls,
     CogPlus.__disabled__ c = true ->
     BotPlus.load_cog (CogSubclass c) b
     = (Val tt, mkBot (user b) (cogs b) (disabled_cogs b ++ [c]) (log b))
     /\ dict_get (BotPlus.cogs_status (snd (BotPlus.load_cog (CogSubclass c) b)))
          (CogPlus.qualified_name c)
        = Some (if CogPlus.__beta__ c
                then CogPlus.Status.BetaDisabled else CogPlus.Status.Disabled))
  /\ (forall c : CogPlus.cls,
        CogPlus.__disabled__ c = false ->
        NoDup (map fst (cogs b)) ->
        dict_get (cogs b) (CogPlus.qualified_name c) = None ->
        (forall other, In other (disabled_cogs b) ->
           CogPlus.qualified_name other <> CogPlus.qualified_name c) ->
        dict_get (cogs (snd (BotPlus.load_cog (CogSubclass c) b))) (CogPlus.qualified_name c)
        = Some c
        /\ disabled_cogs (snd (BotPlus.load_cog (CogSubclass c) b)) = disabled_cogs b
        /\ dict_get (BotPlus.cogs_status (snd (BotPlus.load_cog (CogSubclass c) b)))
             (CogPlus.qualified_name c)
           = Some (if CogPlus.__beta__ c
                   then CogPlus.Status.BetaEnabled else CogPlus.Status.Enabled))
  /\ (forall classes : list PyClass,
        registry_ok b -> registry_ok (snd (BotPlus.load_cogs classes b)))
  /\ NoDup (map fst (BotPlus.cogs_status b))
  /\ Forall (fun entry => In (snd entry) four_labels) (BotPlus.cogs_status b)
  /\ (forall (earlier later : list Cog) (cog : Cog),
        disabled_cogs b = earlier ++ cog :: later ->
        (forall other, In other later ->
           CogPlus.qualified_name other <> CogPlus.qualified_name cog) ->
        dict_get (BotPlus.cogs_status b) (CogPlus.qualified_name cog)
        = Some (if CogPlus.__beta__ cog
                then CogPlus.Status.BetaDisabled else CogPlus.Status.Disabled))
  /\ (forall (name : string) (cog : Cog),
        NoDup (map fst (cogs b)) ->
        dict_get (cogs b) name = Some cog ->
        (forall other, In other (disabled_cogs b) -> CogPlus.qualified_name other <> name) ->
        dict_get (BotPlus.cogs_status b) name
        = Some (if CogPlus.__beta__ cog
                then CogPlus.Status.BetaEnabled else CogPlus.Status.Enabled)).
Proof.
  split.
  { intros c Hd. rewrite (load_cog_disabled c b Hd). split; [reflexivity|].
    apply (side_list_label (mkBot (user b) (cogs b) (disabled_cogs b ++ [c]) (log b))
             (disabled_cogs b) [] c); [reflexivity | intros other []]. }
  split.
  { intros c Hd Hnd _ Hside. rewrite (load_cog_enabled c b Hd). simpl snd.
    assert (Hget : dict_get (dict_set (cogs b) (CogPlus.qualified_name c) c)
                     (CogPlus.qualified_name c) = Some c).
    { rewrite dict_get_set. now rewrite String.eqb_refl. }
    split; [exact Hget|]. split; [reflexivity|].
    rewrite attached_cog_label.
    - simpl cogs. now rewrite Hget.
    - simpl cogs. now apply NoDup_dict_set.
    - exact Hside. }
  split.
  { intros classes. revert b. induction classes as [|cls rest IH]; intros b Hok; [assumption|].
    rewrite load_cogs_cons. pose proof (registry_ok_load_cog cls b Hok) as Hstep.
    destruct (BotPlus.load_cog cls b) as [[[]|e] b1]; simpl in Hstep.
    - now apply IH.
    - assumption. }
  split; [rewrite cogs_status_pairs; apply NoDup_dict_of|].
  split.
  { rewrite cogs_status_pairs. apply Forall_forall. intros [name label] Hin.
    apply In_dict_of in Hin. apply in_app_or in Hin. simpl.
    destruct Hin as [Hin | Hin]; apply in_map_iff in Hin;
      destruct Hin as [x [Heq _]]; injection Heq as _ <-.
    - unfold attached_label, four_labels. destruct (CogPlus.__beta__ (snd x)); simpl; tauto.
    - unfold side_label, four_labels. destruct (CogPlus.__beta__ x); simpl; tauto. }
  split.
  { intros earlier later cog Hside Hlater.
    exact (side_list_label b earlier later cog Hside Hlater). }
  intros name cog Hnd Hget Hside.
  rewrite (attached_cog_label b name Hnd Hside), Hget. reflexivity.
Qed.

Lemma load_cog_status_by_name_witness :
  dict_get (BotPlus.cogs_status (snd (BotPlus.load_cog (CogSubclass polls) bot0))) "Polls"
  = Some "BetaDisabled"
  /\ dict_get (BotPlus.cogs_status (snd (BotPlus.load_cog (CogSubclass music) bot0))) "Music"
     = Some "Enabled"
  /\ registry_ok (snd (BotPlus.load_cogs
                         [CogSubclass admin; CogSubclass admin_off; CogSubclass polls] bot0))
  /\ dict_get (BotPlus.cogs_status (mkBot (user bot0) [("Music", music)] [polls; admin_off] []))
       "Polls" = Some "BetaDisabled"
  /\ dict_get (BotPlus.cogs_status (mkBot (user bot0) [("Music", music)] [polls; admin_off] []))
       "Music" = Some "Enabled".
Proof.
  destruct (load_cog_status_by_name bot0) as [Hoff [Hon [Hkeep _]]].
  destruct (load_cog_status_by_name
              (mkBot (user bot0) [("Music", music)] [polls; admin_off] []))
    as [_ [_ [_ [_ [_ [Hside Hattached]]]]]].
  split; [|split; [|split; [|split]]].
  - exact (proj2 (Hoff polls eq_refl)).
  - refine (proj2 (proj2 (Hon music eq_refl _ eq_refl _))).
    + constructor.
    + intros other [].
  - apply Hkeep. repeat split; simpl; constructor.
  - apply (Hside [] [admin_off] polls).
    + reflexivity.
    + intros other [<- | []]. discriminate.
  - apply (Hattached "Music" music).
    + repeat constructor; simpl; tauto.
    + reflexivity.
    + intros other [<- | [<- | []]]; discriminate.
Defined.
